(** * Clifford tableaux of qiskit.quantum_info.operators.symplectic

    A shallow embedding of [clifford.py] and [clifford_utils.py]: the
    stabilizer table of a Clifford operator, the operator methods built on
    it, the size of the symplectic group used for sampling, and the
    canonical one- and two-qubit gate lists.

    Python integers are [Z] (they are arbitrary precision), numpy boolean
    arrays are lists of [bool] (a matrix is a list of rows), Python objects
    that are shared by reference live in an explicit store. *)

From Stdlib Require Import ZArith List Bool String Ascii Lia DecimalString.
From stdpp Require Import base option list gmap strings.

Open Scope Z_scope.

(** ** Exceptions *)

Inductive exn : Type :=
| QiskitError
| NotImplementedError
| TypeError
| AttributeError
| IndexError
| ValueError.

Inductive result (A : Type) : Type :=
| Ok (a : A)
| Raise (e : exn).

Arguments Ok {A} a.
Arguments Raise {A} e.

Definition is_Ok {A} (r : result A) : bool :=
  match r with Ok _ => true | Raise _ => false end.

(** ** The numpy operations the source uses *)

Module np.

(** [np.zeros(n, dtype=bool)] *)
Definition zeros (n : nat) : list bool := replicate n false.

(** [np.zeros([n, m])] as a boolean matrix *)
Definition zeros2 (n m : nat) : list (list bool) := replicate n (zeros m).

(** Row [i] of [np.eye(n, dtype=bool)]. *)
Definition eye_row (n i : nat) : list bool :=
  map (fun j => Nat.eqb i j) (seq 0 n).

(** [np.eye(n, dtype=bool)] *)
Definition eye (n : nat) : list (list bool) :=
  map (eye_row n) (seq 0 n).

(** [np.block([[a, b], [c, d]])] *)
Definition block (a b c d : list (list bool)) : list (list bool) :=
  zip_with app a b ++ zip_with app c d.

(** [np.logical_xor(a, b)] on vectors of one length *)
Definition logical_xor (a b : list bool) : list bool := zip_with xorb a b.

(** [a & b] on vectors of one length *)
Definition logical_and (a b : list bool) : list bool := zip_with andb a b.

(** Column [j] of a matrix. *)
Definition column (m : list (list bool)) (j : nat) : list bool :=
  map (fun r => nth j r false) m.

(** The number of columns: [a.shape[1]], taken from the first row. *)
Definition ncols (m : list (list bool)) : nat := length (hd [] m).

(** [np.dot] of two boolean vectors.  numpy has a dot product of its own
    for [dtype=bool]: the result is again a boolean, true when some
    position is true in both (an OR of ANDs, not a sum). *)
Definition dot_vec (a b : list bool) : bool := existsb id (zip_with andb a b).

(** [np.dot(a, b)] of two boolean matrices: entry (i, j) is the boolean
    dot product of row i of [a] and column j of [b]. *)
Definition dot (a b : list (list bool)) : list (list bool) :=
  map (fun r => map (fun j => dot_vec r (column b j)) (seq 0 (ncols b))) a.

(** [(a % 2).astype(bool)] on a boolean matrix: [True % 2] is 1 and
    [False % 2] is 0, so every entry comes back as it was. *)
Definition mod2_astype_bool (a : list (list bool)) : list (list bool) :=
  map (map (fun b : bool => negb (Z.b2z b mod 2 =? 0))) a.

(** [np.array_equal(a, b)] *)
Definition array_equal (a b : list (list bool)) : bool :=
  bool_decide (a = b).

(** [np.sum(a, axis=1)]: the number of true entries of every row. *)
Definition sum_axis1 (a : list (list bool)) : list Z :=
  map (fun r => fold_right Z.add 0 (map Z.b2z r)) a.

End np.

(** [range(a, b)] *)
Definition py_range (a b : Z) : list Z :=
  map (fun i => a + Z.of_nat i) (seq 0 (Z.to_nat (b - a))).

(** ** The size of the symplectic group ([random_clifford], lines 55-59)

    [size = pow(2, num_qubits ** 2)] followed by the loop
    [for i in range(1, num_qubits+1): size *= pow(4, i) - 1]. *)
Definition symplectic_group_size (num_qubits : Z) : Z :=
  fold_left (fun size i => size * (4 ^ i - 1))
            (py_range 1 (num_qubits + 1))
            (2 ^ (num_qubits ^ 2)).

(** The order of Sp(2n,2) as the specification writes it:
    the product of [4^k - 1] for k from 1 to n ... *)
Fixpoint prod_4k_minus_1 (n : nat) : Z :=
  match n with
  | O => 1
  | S m => prod_4k_minus_1 m * (4 ^ Z.of_nat (S m) - 1)
  end.

(** ... times [2^(n^2)]. *)
Definition order_Sp (n : Z) : Z :=
  2 ^ (n * n) * prod_4k_minus_1 (Z.to_nat n).

(** ** Stabilizer tables

    [stabilizer_table.py] is not among the sources; the table is what
    [clifford.py] reads and writes of it: the boolean array [_array], the
    phase vector [_phase] and the qubit count [_n_qubits]. *)

Record StabilizerTable : Type := mkTable {
  _array : list (list bool);
  _phase : list bool;
  _n_qubits : nat
}.

(** [table.size]: the number of rows. *)
Definition size (t : StabilizerTable) : nat := length (_array t).

(** Modelled from the spec: the constructor [StabilizerTable(data, phase)]
    of the missing class.  A row is "X-block columns followed by Z-block
    columns", so the qubit count is half the number of columns; the data is
    cast to booleans by the caller. *)
Definition StabilizerTable_new (data : list (list bool)) (phase : list bool)
  : StabilizerTable :=
  {| _array := data; _phase := phase; _n_qubits := (np.ncols data / 2)%nat |}.

(** Modelled from the spec: [StabilizerTable(data)] with no phase given
    starts from the zero phase vector, one bit per row. *)
Definition StabilizerTable_of_array (data : list (list bool)) : StabilizerTable :=
  StabilizerTable_new data (np.zeros (length data)).

(** Modelled from the spec: the views [table.X] and [table.Z] of the missing
    class, the first and the second half of the columns. *)
Definition table_X (t : StabilizerTable) : list (list bool) :=
  map (take (_n_qubits t)) (_array t).

Definition table_Z (t : StabilizerTable) : list (list bool) :=
  map (fun r => take (_n_qubits t) (drop (_n_qubits t) r)) (_array t).

(** Modelled from the spec: a slice [table[a:b]] of the missing class keeps
    rows a..b-1 with their phase bits. *)
Definition table_slice (t : StabilizerTable) (a b : nat) : StabilizerTable :=
  {| _array := take (b - a) (drop a (_array t));
     _phase := take (b - a) (drop a (_phase t));
     _n_qubits := _n_qubits t |}.

(** Modelled from the spec: [t1 + t2] of the missing class appends the rows
    of [t2] below those of [t1]. *)
Definition table_add (t1 t2 : StabilizerTable) : StabilizerTable :=
  {| _array := _array t1 ++ _array t2;
     _phase := _phase t1 ++ _phase t2;
     _n_qubits := _n_qubits t1 |}.

(** Modelled from the spec: [t1 == t2] of the missing class, "array + phase
    element-wise equal". *)
Definition table_eq (t1 t2 : StabilizerTable) : bool :=
  bool_decide (_array t1 = _array t2) && bool_decide (_phase t1 = _phase t2).

(** ** The object store

    A Clifford object holds a reference to a StabilizerTable object; two
    Clifford objects may hold the same reference.  The store maps the
    identity of a table object to its current attributes. *)

Definition loc : Type := nat.

Abbreviation store := (gmap loc StabilizerTable).

Record Clifford : Type := mkClifford { _table : loc }.

(** Computations that read and write the store and may raise. *)
Definition M (A : Type) : Type := store -> result (A * store).

Definition ret {A} (a : A) : M A := fun s => Ok (a, s).

Definition raise {A} (e : exn) : M A := fun _ => Raise e.

Definition bind {A B} (m : M A) (k : A -> M B) : M B :=
  fun s => match m s with
           | Ok (a, s') => k a s'
           | Raise e => Raise e
           end.

Notation "x <- m ;; k" := (bind m (fun x => k))
  (at level 100, m at next level, right associativity).
Notation "m ;;; k" := (bind m (fun _ => k))
  (at level 100, right associativity).

Definition empty_table : StabilizerTable :=
  {| _array := []; _phase := []; _n_qubits := 0 |}.

(** Reading the attributes of the table object at [l].  Every reference a
    Python object holds is live; on a store without [l] the model answers
    with the empty table. *)
Definition deref (l : loc) : M StabilizerTable :=
  fun s => Ok (default empty_table (s !! l), s).

(** Writing the attributes of the table object at [l]. *)
Definition assign (l : loc) (t : StabilizerTable) : M unit :=
  fun s => Ok (tt, <[l := t]> s).

(** A new table object. *)
Definition alloc (t : StabilizerTable) : M loc :=
  fun s => let l := fresh (dom s) in Ok (l, <[l := t]> s).

(** ** The Clifford class ([clifford.py]) *)

(** [_symeye(n)]: the blocks [[0, I], [I, 0]] as a boolean matrix. *)
Definition _symeye (n : nat) : list (list bool) :=
  np.block (np.zeros2 n n) (np.eye n) (np.eye n) (np.zeros2 n n).

(** What [__init__] reads of a [ScalarOp]. *)
Record ScalarOp : Type := mkScalarOp {
  scalar_is_unitary : bool;
  _input_dims : list Z
}.

Section Init.

(** Circuits and instructions, and [append_gate], belong to modules that are
    not among the sources. *)
Variable Instruction : Type.
Variable num_qubits : Instruction -> nat.
Variable append_gate : Clifford -> Instruction -> M unit.

(** The argument of [Clifford(data)], by the case [__init__] takes. *)
Inductive init_data : Type :=
| data_Clifford (c : Clifford)
| data_ScalarOp (s : ScalarOp)
| data_Instruction (i : Instruction)
| data_table (t : StabilizerTable)
| data_array (a : list (list bool)).

(** Lines 51-63 of [__init__]: the shape of the table is validated, then
    the object exists. *)
Definition validate_shape (l : loc) : M Clifford :=
  t <- deref l ;;
  if negb (size t =? 2 * _n_qubits t)%nat
  then raise QiskitError
  else ret {| _table := l |}.

(** [Clifford(np.eye(2 * instruction.num_qubits))] followed by
    [append_gate(clifford, instruction)]: [from_instruction] once its
    argument is an instruction. *)
Definition from_instruction (instruction : Instruction) : M Clifford :=
  l <- alloc (StabilizerTable_of_array (np.eye (2 * num_qubits instruction))) ;;
  clifford <- validate_shape l ;;
  append_gate clifford instruction ;;;
  ret clifford.

(** [Clifford.__init__(self, data)] *)
Definition Clifford_init (data : init_data) : M Clifford :=
  l <- match data with
       | data_Clifford c =>
           (* sharing the underlying StabilizerTable *)
           ret (_table c)
       | data_ScalarOp s =>
           if negb (scalar_is_unitary s)
              || negb (bool_decide
                         ((list_to_set (_input_dims s) : gset Z) = {[ 2 ]}))
           then raise QiskitError
           else alloc (StabilizerTable_of_array
                         (np.eye (2 * length (_input_dims s))))
       | data_Instruction i =>
           c <- from_instruction i ;; ret (_table c)
       | data_table t => alloc t
       | data_array a => alloc (StabilizerTable_of_array a)
       end ;;
  validate_shape l.

(** [self.n_qubits] *)
Definition n_qubits (self : Clifford) : M nat :=
  t <- deref (_table self) ;; ret (_n_qubits t).

(** [Clifford.__eq__]: the operators have the same dimensions (the check of
    the base class) and the tables are equal. *)
Definition Clifford_eq (self other : Clifford) : M bool :=
  t1 <- deref (_table self) ;;
  t2 <- deref (_table other) ;;
  ret ((_n_qubits t1 =? _n_qubits t2)%nat && table_eq t1 t2).

(** [Clifford.is_unitary]: [np.dot] is applied to the table's array and to
    [seye] as they are, both of [dtype=bool], and to no transpose. *)
Definition is_unitary (self : Clifford) : M bool :=
  nq <- n_qubits self ;;
  let seye := _symeye nq in
  t <- deref (_table self) ;;
  let cliffdata := _array t in
  ret (np.array_equal
         (np.mod2_astype_bool (np.dot cliffdata (np.dot seye cliffdata)))
         seye).

(** Modelled from the spec: [copy()] of the missing base class, "eager deep
    copy": a new Clifford object on a new table object with the same
    contents. *)
Definition copy (self : Clifford) : M Clifford :=
  t <- deref (_table self) ;;
  l <- alloc t ;;
  ret {| _table := l |}.

(** Modelled from the spec: the setter [table.phase = value] of the missing
    class stores the vector, cast to booleans, as the phase of the table. *)
Definition set_phase (l : loc) (value : list Z) : M unit :=
  t <- deref l ;;
  assign l {| _array := _array t;
              _phase := map (fun v => negb (v =? 0)) value;
              _n_qubits := _n_qubits t |}.

(** [Clifford.conjugate] *)
Definition conjugate (self : Clifford) : M Clifford :=
  t <- deref (_table self) ;;
  let x := table_X t in
  let z := table_Z t in
  ret' <- copy self ;;
  t' <- deref (_table self) ;;
  set_phase (_table ret')
    (zip_with (fun (p : bool) (s : Z) => Z.lxor (Z.b2z p) s)
              (_phase t')
              (map (fun s => s mod 2)
                   (np.sum_axis1 (zip_with np.logical_and x z)))) ;;;
  ret ret'.

(** Modelled from the spec: [_get_compose_dims] of the missing base class,
    "composing elements of qargs-incompatible dimension is a validation
    error": without [qargs] the qubit counts agree, with [qargs] there is one
    position per qubit of [other]. *)
Definition _get_compose_dims (self other : Clifford)
    (qargs : option (list nat)) (front : bool) : M unit :=
  n <- n_qubits self ;;
  m <- n_qubits other ;;
  match qargs with
  | None => if (n =? m)%nat then ret tt else raise QiskitError
  | Some qs => if (length qs =? m)%nat then ret tt else raise QiskitError
  end.

(** [Clifford.compose]: [other] is made a Clifford when it is none, the
    dimensions are validated, and the method ends in
    [raise NotImplementedError]; [_compose_clifford] is called nowhere.
    ([qargs] is the argument as passed: an operand brings no [qargs]
    attribute of its own.) *)
Definition compose (self : Clifford) (other : init_data)
    (qargs : option (list nat)) (front : bool) : M Clifford :=
  other <- match other with
           | data_Clifford c => ret c
           | d => Clifford_init d
           end ;;
  _get_compose_dims self other qargs front ;;;
  raise NotImplementedError.

(** [Clifford.reset]: the two attributes of the table object are bound to a
    new identity array and a new zero vector. *)
Definition reset (self : Clifford) : M unit :=
  t <- deref (_table self) ;;
  assign (_table self)
    {| _array := np.eye (length (_array t));
       _phase := _phase t;
       _n_qubits := _n_qubits t |} ;;;
  t <- deref (_table self) ;;
  assign (_table self)
    {| _array := _array t;
       _phase := np.zeros (length (_phase t));
       _n_qubits := _n_qubits t |}.

(** [self.stabilizer] and [self.destabilizer]: new tables of the rows
    n..2n-1 and 0..n-1. *)
Definition stabilizer (self : Clifford) : M StabilizerTable :=
  t <- deref (_table self) ;;
  ret (table_slice t (_n_qubits t) (2 * _n_qubits t)).

Definition destabilizer (self : Clifford) : M StabilizerTable :=
  t <- deref (_table self) ;;
  ret (table_slice t 0 (_n_qubits t)).

End Init.

Arguments data_Clifford {Instruction} c.
Arguments data_ScalarOp {Instruction} s.
Arguments data_Instruction {Instruction} i.
Arguments data_table {Instruction} t.
Arguments data_array {Instruction} a.

(** ** Row sums ([_rowsum_AG], [_g_AG])

    A row of [_data] is the X bits, the Z bits and the phase bit last. *)

(** The function [_g_AG] of lines 378-379.  Its [def] stands inside
    [_rowsum_AG], below the loop: it binds a name local to that function and
    adds no attribute to the class. *)
Definition _g_AG (x1 z1 x2 z2 : bool) : bool :=
  (negb x1 && z1 && x2 && negb z2)
  || (x1 && negb z1 && x2 && z2)
  || (x1 && z1 && negb x2 && z2).

(** The names the body of [class Clifford] binds (its [def]s at class
    level, properties included). *)
Definition Clifford_attributes : list string :=
  ["__init__"; "__repr__"; "__str__"; "__eq__"; "__getitem__"; "__setitem__";
   "n_qubits"; "table"; "stabilizer"; "destabilizer"; "is_unitary";
   "to_matrix"; "to_operator"; "conjugate"; "transpose"; "compose"; "dot";
   "tensor"; "expand"; "reset"; "to_dict"; "from_dict"; "from_instruction";
   "_compose_subsystem"; "_compose_clifford"; "_rowsum_AG"].

(** [self._g_AG]: the attribute is looked up on the object; a name the class
    does not bind raises [AttributeError]. *)
Definition self_g_AG : result (bool -> bool -> bool -> bool -> bool) :=
  if bool_decide ("_g_AG" ∈ Clifford_attributes)
  then Ok _g_AG
  else Raise AttributeError.

(** [rowh[:-1] = np.logical_xor(rowh[:-1], rowi[:-1])]: the two vectors have
    one length, or the second has one entry and is broadcast; any other pair
    of shapes is a [ValueError]. *)
Definition xor_assign (a b : list bool) : option (list bool) :=
  if (length a =? length b)%nat then Some (np.logical_xor a b)
  else match b with
       | [y] => Some (map (fun x => xorb x y) a)
       | _ => None
       end.

(** The loop [for ind in range(nq)] of [_rowsum_AG], pass by pass, on the
    current contents of [rowh]: the result is the contents [rowh] is left
    with and how the loop ended.  In a pass the callee [self._g_AG] is
    evaluated first, then its four arguments, then the call; [rowh[:-1]] and
    [rowh[-1]] are written inside the loop. *)
Fixpoint _rowsum_AG_loop (nq : nat) (rowi : list bool) (inds : list nat)
    (phaseout : bool) (rowh : list bool) : list bool * result unit :=
  match inds with
  | [] => (rowh, Ok tt)
  | ind :: inds =>
      match self_g_AG with
      | Raise e => (rowh, Raise e)
      | Ok g =>
          match rowh !! ind, rowh !! (nq + ind)%nat,
                rowi !! ind, rowi !! (nq + ind)%nat with
          | Some x1, Some z1, Some x2, Some z2 =>
              let phaseout := xorb phaseout (g x1 z1 x2 z2) in
              match xor_assign (removelast rowh) (removelast rowi) with
              | Some bits =>
                  _rowsum_AG_loop nq rowi inds phaseout (bits ++ [phaseout])
              | None => (rowh, Raise ValueError)
              end
          | _, _, _, _ => (rowh, Raise IndexError)
          end
      end
  end.

(** [_rowsum_AG(rowh, rowi)]: [rowh] is changed in place; the result is the
    contents [rowh] is left with and how the call ended.  [rowh[-1]] and
    [rowi[-1]] of an empty row raise [IndexError]. *)
Definition _rowsum_AG (rowh rowi : list bool) : list bool * result unit :=
  let nq := ((length rowh - 1) / 2)%nat in
  match last rowh, last rowi with
  | Some ph, Some pi =>
      _rowsum_AG_loop nq rowi (seq 0 nq) (xorb ph pi) rowh
  | _, _ => (rowh, Raise IndexError)
  end.

(** ** Labels and the dictionary form ([to_dict], [from_dict]) *)

(** Modelled from the spec: the Pauli of a pair of bits, "I" = [0,0],
    "X" = [1,0], "Y" = [1,1], "Z" = [0,1]. *)
Definition pauli_char (x z : bool) : ascii :=
  match x, z with
  | false, false => "I"
  | true, false => "X"
  | true, true => "Y"
  | false, true => "Z"
  end%char.

Definition pauli_bits (c : ascii) : option (bool * bool) :=
  if Ascii.eqb c "I" then Some (false, false)
  else if Ascii.eqb c "X" then Some (true, false)
  else if Ascii.eqb c "Y" then Some (true, true)
  else if Ascii.eqb c "Z" then Some (false, true)
  else None.

(** Modelled from the spec: [to_labels] of the missing class.  A label is
    the sign of the phase bit followed by one Pauli per qubit, "most
    significant qubit leftmost while the internal bit arrays run
    least-significant qubit first". *)
Definition to_label (n : nat) (row : list bool) (ph : bool) : string :=
  String (if ph then "-" else "+")%char
    (string_of_list_ascii
       (rev (zip_with pauli_char (take n row) (take n (drop n row))))).

Definition to_labels (t : StabilizerTable) : list string :=
  zip_with (to_label (_n_qubits t)) (_array t) (_phase t).

(** Modelled from the spec: [from_labels] of the missing class, the inverse
    reading.  A label that is not a sign followed by one or more of I, X, Y
    and Z is refused. *)
Definition from_label (label : string) : result (list bool * bool) :=
  match label with
  | String sg paulis =>
      match (if Ascii.eqb sg "+" then Some false
             else if Ascii.eqb sg "-" then Some true else None),
            mapM pauli_bits (list_ascii_of_string paulis) with
      | Some ph, Some (p :: ps) =>
          let qs := rev (p :: ps) in
          Ok (map fst qs ++ map snd qs, ph)
      | _, _ => Raise QiskitError
      end
  | EmptyString => Raise QiskitError
  end.

Fixpoint from_label_rows (labels : list string)
  : result (list (list bool * bool)) :=
  match labels with
  | [] => Ok []
  | l :: ls =>
      match from_label l with
      | Ok r => match from_label_rows ls with
                | Ok rs => Ok (r :: rs)
                | Raise e => Raise e
                end
      | Raise e => Raise e
      end
  end.

Definition from_labels (labels : option (list string)) : result StabilizerTable :=
  match labels with
  | None => Raise TypeError
  | Some ls =>
      match from_label_rows ls with
      | Ok rows => Ok (StabilizerTable_new (map fst rows) (map snd rows))
      | Raise e => Raise e
      end
  end.

Definition lift {A} (r : result A) : M A :=
  fun s => match r with Ok a => Ok (a, s) | Raise e => Raise e end.

Section Dict.

Variable Instruction : Type.
Variable num_qubits : Instruction -> nat.
Variable append_gate : Clifford -> Instruction -> M unit.

(** [Clifford.to_dict] *)
Definition to_dict (self : Clifford) : M (gmap string (list string)) :=
  s <- stabilizer self ;;
  d <- destabilizer self ;;
  ret (<["destabilizer" := to_labels d]> (<["stabilizer" := to_labels s]> ∅)).

(** [Clifford.from_dict] *)
Definition from_dict (obj : gmap string (list string)) : M Clifford :=
  destabilizer <- lift (from_labels (obj !! "destabilizer")) ;;
  stabilizer <- lift (from_labels (obj !! "stabilizer")) ;;
  Clifford_init Instruction num_qubits append_gate
    (data_table (table_add destabilizer stabilizer)).

End Dict.

(** ** Random sampling ([random_clifford]) *)

(** [m[:, j]] and [m[:, j] = col] on an integer matrix. *)
Definition get_column (m : list (list Z)) (j : nat) : list Z :=
  map (fun r => nth j r 0) m.

Definition set_column (m : list (list Z)) (j : nat) (col : list Z)
  : list (list Z) :=
  zip_with (fun r v => <[j := v]> r) m col.

Section Random.

Variable Instruction : Type.
Variable num_qubits_of : Instruction -> nat.
Variable append_gate : Clifford -> Instruction -> M unit.

(** The generator [random.Random] of Python's library: its state, the state
    [seed(a)] leaves for a seed that is not [None], and the two draws the
    source makes, each with the state it leaves. *)
Variable seed_value : Type.
Variable rng_state : Type.
Variable seed_state : seed_value -> rng_state.
Variable randint : Z -> Z -> rng_state -> Z * rng_state.
Variable randrange : Z -> rng_state -> Z * rng_state.

(** [symplectic(rint, num_qubits)] of [symplectic_utils], which is not among
    the sources: a matrix of 0s and 1s. *)
Variable symplectic : Z -> nat -> list (list Z).

(** [rng.seed(seed)]: with [None] the state comes from the operating
    system, here [os_state]. *)
Definition rng_seed (os_state : rng_state) (seed : option seed_value)
  : rng_state :=
  match seed with
  | Some a => seed_state a
  | None => os_state
  end.

(** [[rng.randint(0, 1) for _ in range(k)]] *)
Fixpoint randint_list (k : nat) (rng : rng_state) : list Z * rng_state :=
  match k with
  | O => ([], rng)
  | S k' =>
      let '(b, rng) := randint 0 1 rng in
      let '(bs, rng) := randint_list k' rng in
      (b :: bs, rng)
  end.

(** The first loop of lines 73-75, rows interchanged. *)
Definition interchange_rows (n : nat) (symp : list (list Z))
  : list (list Z) :=
  fold_left (fun symp2 i =>
               let symp2 := <[i := nth (2 * i) symp []]> symp2 in
               <[(i + n)%nat := nth (2 * i + 1) symp []]> symp2)
            (seq 0 n)
            (replicate (2 * n) (replicate (2 * n) 0)).

(** The second loop of lines 76-78, columns interchanged. *)
Definition interchange_columns (n : nat) (symp2 : list (list Z))
  : list (list Z) :=
  fold_left (fun symp3 i =>
               let symp3 := set_column symp3 i (get_column symp2 (2 * i)) in
               set_column symp3 (i + n) (get_column symp2 (2 * i + 1)))
            (seq 0 n)
            (replicate (2 * n) (replicate (2 * n) 0)).

(** The table [StabilizerTable(symp3, phase)] that [random_clifford] hands to
    [Clifford]. *)
Definition random_clifford_table (os_state : rng_state) (num_qubits : nat)
    (seed : option seed_value) : StabilizerTable :=
  let rng := rng_seed os_state seed in
  let '(bits, rng) := randint_list (2 * num_qubits) rng in
  let phase := map (fun b => negb (b =? 0)) bits in
  let size := symplectic_group_size (Z.of_nat num_qubits) in
  let '(rint, rng) := randrange size rng in
  let symp := symplectic rint num_qubits in
  let symp2 := interchange_rows num_qubits symp in
  let symp3 := interchange_columns num_qubits symp2 in
  StabilizerTable_new (map (map (fun v => negb (v =? 0))) symp3) phase.

(** [random_clifford(num_qubits, seed)] *)
Definition random_clifford (os_state : rng_state) (num_qubits : nat)
    (seed : option seed_value) : M Clifford :=
  Clifford_init Instruction num_qubits_of append_gate
    (data_table (random_clifford_table os_state num_qubits seed)).

End Random.

(** ** Canonical gate lists ([clifford_utils.py]) *)

(** [str(q)] of an integer. *)
Definition str (q : Z) : string := NilZero.string_of_int (Z.to_int q).

(** [gate_index == k]; the index is [None] in the calls for a cnot. *)
Definition index_is (gate_index : option Z) (k : Z) : bool :=
  match gate_index with
  | Some v => v =? k
  | None => false
  end.

(** [append_gate_list(gate_type, qubits, gate_index, gatelist)]: the list is
    appended to in place; the result is its new contents.  The qubit list
    has the entries the gate type reads, [qubits[0]] and for a cnot
    [qubits[1]], as in every call of the file; a shorter list is an
    [IndexError] in Python and is outside this definition. *)
Definition append_gate_list (gate_type : string) (qubits : list Z)
    (gate_index : option Z) (gatelist : list string) : list string :=
  let gatelist :=
    if String.eqb gate_type "pauli" then
      let gatelist :=
        if index_is gate_index 1
        then gatelist ++ ["z " +:+ str (nth 0 qubits 0)] else gatelist in
      let gatelist :=
        if index_is gate_index 2
        then gatelist ++ ["x " +:+ str (nth 0 qubits 0)] else gatelist in
      if index_is gate_index 3
      then gatelist ++ ["y " +:+ str (nth 0 qubits 0)] else gatelist
    else gatelist in
  let gatelist :=
    if String.eqb gate_type "hadamard" then
      if index_is gate_index 1
      then gatelist ++ ["h " +:+ str (nth 0 qubits 0)] else gatelist
    else gatelist in
  let gatelist :=
    if String.eqb gate_type "rotation" then
      let gatelist :=
        if index_is gate_index 1
        then gatelist ++ ["v " +:+ str (nth 0 qubits 0)] else gatelist in
      if index_is gate_index 2
      then gatelist ++ ["w " +:+ str (nth 0 qubits 0)] else gatelist
    else gatelist in
  if String.eqb gate_type "cnot" then
    gatelist ++ ["cx " +:+ str (nth 0 qubits 0) +:+ " " +:+ str (nth 1 qubits 0)]
  else gatelist.

(** [clifford1_gates(idx)] *)
Definition clifford1_gates (idx : Z) : list string :=
  let gatelist := [] in
  let cannonicalorder := idx mod 24 in
  let pauli := cannonicalorder mod 4 in
  let rotation := (cannonicalorder / 4) mod 3 in
  let hadamard := (cannonicalorder / 12) mod 2 in
  let gatelist := append_gate_list "hadamard" [0] (Some hadamard) gatelist in
  let gatelist := append_gate_list "rotation" [0] (Some rotation) gatelist in
  let gatelist := append_gate_list "pauli" [0] (Some pauli) gatelist in
  gatelist.

(** [clifford2_gates(idx)] *)
Definition clifford2_gates (idx : Z) : list string :=
  let gatelist := [] in
  let cannon := idx mod 11520 in
  let pauli := cannon mod 16 in
  let symp := cannon / 16 in
  let gatelist :=
    if symp <? 36 then
      let r0 := symp mod 3 in
      let r1 := (symp / 3) mod 3 in
      let h0 := (symp / 9) mod 2 in
      let h1 := (symp / 18) mod 2 in
      let gatelist := append_gate_list "hadamard" [0] (Some h0) gatelist in
      let gatelist := append_gate_list "hadamard" [1] (Some h1) gatelist in
      let gatelist := append_gate_list "rotation" [0] (Some r0) gatelist in
      append_gate_list "rotation" [1] (Some r1) gatelist
    else if symp <? 360 then
      let symp := symp - 36 in
      let r0 := symp mod 3 in
      let r1 := (symp / 3) mod 3 in
      let r2 := (symp / 9) mod 3 in
      let r3 := (symp / 27) mod 3 in
      let h0 := (symp / 81) mod 2 in
      let h1 := (symp / 162) mod 2 in
      let gatelist := append_gate_list "hadamard" [0] (Some h0) gatelist in
      let gatelist := append_gate_list "hadamard" [1] (Some h1) gatelist in
      let gatelist := append_gate_list "rotation" [0] (Some r0) gatelist in
      let gatelist := append_gate_list "rotation" [1] (Some r1) gatelist in
      let gatelist := append_gate_list "cnot" [0; 1] None gatelist in
      let gatelist := append_gate_list "rotation" [0] (Some r2) gatelist in
      append_gate_list "rotation" [1] (Some r3) gatelist
    else if symp <? 684 then
      let symp := symp - 360 in
      let r0 := symp mod 3 in
      let r1 := (symp / 3) mod 3 in
      let r2 := (symp / 9) mod 3 in
      let r3 := (symp / 27) mod 3 in
      let h0 := (symp / 81) mod 2 in
      let h1 := (symp / 162) mod 2 in
      let gatelist := append_gate_list "hadamard" [0] (Some h0) gatelist in
      let gatelist := append_gate_list "hadamard" [1] (Some h1) gatelist in
      let gatelist := append_gate_list "rotation" [0] (Some r0) gatelist in
      let gatelist := append_gate_list "rotation" [1] (Some r1) gatelist in
      let gatelist := append_gate_list "cnot" [0; 1] None gatelist in
      let gatelist := append_gate_list "cnot" [1; 0] None gatelist in
      let gatelist := append_gate_list "rotation" [0] (Some r2) gatelist in
      append_gate_list "rotation" [1] (Some r3) gatelist
    else
      let symp := symp - 684 in
      let r0 := symp mod 3 in
      let r1 := (symp / 3) mod 3 in
      let h0 := (symp / 9) mod 2 in
      let h1 := (symp / 18) mod 2 in
      let gatelist := append_gate_list "hadamard" [0] (Some h0) gatelist in
      let gatelist := append_gate_list "hadamard" [1] (Some h1) gatelist in
      let gatelist := append_gate_list "rotation" [0] (Some r0) gatelist in
      let gatelist := append_gate_list "rotation" [1] (Some r1) gatelist in
      let gatelist := append_gate_list "cnot" [0; 1] None gatelist in
      let gatelist := append_gate_list "cnot" [1; 0] None gatelist in
      append_gate_list "cnot" [0; 1] None gatelist in
  let gatelist := append_gate_list "pauli" [0] (Some (pauli mod 4)) gatelist in
  let gatelist := append_gate_list "pauli" [1] (Some (pauli / 4)) gatelist in
  gatelist.

(** The name of a gate: the text before the first space. *)
Fixpoint gate_name (g : string) : string :=
  match g with
  | EmptyString => EmptyString
  | String c rest => if Ascii.eqb c " " then EmptyString
                     else String c (gate_name rest)
  end.

(** The number of cx gates of a gate list. *)
Definition count_cx (gatelist : list string) : nat :=
  length (filter (fun g => gate_name g = "cx") gatelist).

(** The gate is one of h, v, w, x, y, z. *)
Definition is_local_gate (g : string) : bool :=
  bool_decide (gate_name g ∈ ["h"; "v"; "w"; "x"; "y"; "z"]).

(** ** The statements' vocabulary

    What the specification says of an operation, written out next to the
    code's version of it, and the tables the examples use. *)

(** The row sum as the specification describes it: the bits of the source
    row are XORed into the target row once, and the phase is the XOR of the
    two phase bits and of g over all qubits, taken on the bits the target
    row had before. *)
Definition rowsum_spec (rowh rowi : list bool) : list bool :=
  let nq := ((length rowh - 1) / 2)%nat in
  let g := fold_right xorb false
             (map (fun k => _g_AG (nth k rowh false) (nth (nq + k) rowh false)
                                  (nth k rowi false) (nth (nq + k) rowi false))
                  (seq 0 nq)) in
  np.logical_xor (removelast rowh) (removelast rowi)
    ++ [xorb (xorb (List.last rowh false) (List.last rowi false)) g].

(** The symplectic condition as the specification writes it: T * Omega *
    T^T = Omega over GF(2), sums taken modulo 2. *)
Definition transpose (m : list (list bool)) : list (list bool) :=
  map (np.column m) (seq 0 (np.ncols m)).

Definition gf2_dot (a b : list (list bool)) : list (list bool) :=
  map (fun r => map (fun j => fold_right xorb false
                                (zip_with andb r (np.column b j)))
                    (seq 0 (np.ncols b))) a.

Definition is_symplectic (n : nat) (T : list (list bool)) : bool :=
  bool_decide (gf2_dot T (gf2_dot (_symeye n) (transpose T)) = _symeye n).

(** The table of the S gate on one qubit (the test's [target_table["s"]]):
    the destabilizer X goes to Y, the stabilizer Z stays. *)
Definition S_gate_table : StabilizerTable :=
  {| _array := [[true; true]; [false; true]];
     _phase := [false; false];
     _n_qubits := 1 |}.

(** The table of the X gate on one qubit: the identity array, the phase of
    the stabilizer row set. *)
Definition X_gate_table : StabilizerTable :=
  {| _array := np.eye 2; _phase := [false; true]; _n_qubits := 1 |}.

(** The identity table in place of [t]: what [reset] leaves. *)
Definition reset_table (t : StabilizerTable) : StabilizerTable :=
  {| _array := np.eye (length (_array t));
     _phase := np.zeros (length (_phase t));
     _n_qubits := _n_qubits t |}.

(** A gate list with [k] cx gates whose other gates are all local. *)
Definition cx_class (k : nat) (gatelist : list string) : Prop :=
  count_cx gatelist = k /\
  Forall (fun g => gate_name g = "cx" \/ is_local_gate g = true) gatelist.

(** The number of true bits of a vector. *)
Definition popcount (v : list bool) : nat := sum_list (map Nat.b2n v).

(** The phase vector of the conjugate as the specification writes it: per
    row, the phase bit XOR the parity of popcount(X_row AND Z_row). *)
Definition conjugate_phase (t : StabilizerTable) : list bool :=
  zip_with (fun (p : bool) (r : list bool) =>
              xorb p (Nat.odd (popcount
                        (np.logical_and
                           (take (_n_qubits t) r)
                           (take (_n_qubits t) (drop (_n_qubits t) r))))))
           (_phase t) (_array t).

(** An integer matrix of [k] rows of [c] entries. *)
Definition shape (k c : nat) (m : list (list Z)) : Prop :=
  length m = k /\ Forall (fun r => length r = c) m.

(** The shape of the table of a Clifford operator on [n] qubits. *)
Definition table_shape (n : nat) (t : StabilizerTable) : Prop :=
  _n_qubits t = n
  /\ length (_array t) = (2 * n)%nat
  /\ Forall (fun r => length r = (2 * n)%nat) (_array t)
  /\ length (_phase t) = (2 * n)%nat.

(** ** The methods that are declared and not implemented *)

(** [Clifford.to_matrix], [Clifford.to_operator], [Clifford.transpose] *)
Definition to_matrix (self : Clifford) : M unit :=
  raise NotImplementedError.

Definition to_operator (self : Clifford) : M unit :=
  raise NotImplementedError.

Definition Clifford_transpose (self : Clifford) : M Clifford :=
  raise NotImplementedError.

Section Products.

Variable Instruction : Type.
Variable num_qubits : Instruction -> nat.
Variable append_gate : Clifford -> Instruction -> M unit.

(** [Clifford.tensor] and [Clifford.expand]: [other] is made a Clifford
    when it is none, then the method raises. *)
Definition tensor (self : Clifford) (other : init_data Instruction)
  : M Clifford :=
  other <- match other with
           | data_Clifford c => ret c
           | d => Clifford_init Instruction num_qubits append_gate d
           end ;;
  raise NotImplementedError.

Definition expand (self : Clifford) (other : init_data Instruction)
  : M Clifford :=
  other <- match other with
           | data_Clifford c => ret c
           | d => Clifford_init Instruction num_qubits append_gate d
           end ;;
  raise NotImplementedError.

End Products.

(** The entry [m[i, j]] of an integer matrix. *)
Definition entry (m : list (list Z)) (i j : nat) : Z :=
  nth j (nth i m []) 0.

(** ** Reading a gate list back

    The index a gate list of [clifford1_gates] or [clifford2_gates] was made
    from, read off the gates it holds. *)

Definition has_gate (g : string) (gatelist : list string) : bool :=
  bool_decide (g ∈ gatelist).

Definition hadamard_index (q : string) (gatelist : list string) : Z :=
  if has_gate ("h " +:+ q) gatelist then 1 else 0.

Definition rotation_index (q : string) (gatelist : list string) : Z :=
  if has_gate ("v " +:+ q) gatelist then 1
  else if has_gate ("w " +:+ q) gatelist then 2
  else 0.

Definition pauli_index (q : string) (gatelist : list string) : Z :=
  if has_gate ("z " +:+ q) gatelist then 1
  else if has_gate ("x " +:+ q) gatelist then 2
  else if has_gate ("y " +:+ q) gatelist then 3
  else 0.

(** The gates before the first cx, and those after the last. *)
Fixpoint before_cx (gatelist : list string) : list string :=
  match gatelist with
  | [] => []
  | g :: rest => if bool_decide (gate_name g = "cx") then []
                 else g :: before_cx rest
  end.

Definition after_cx (gatelist : list string) : list string :=
  rev (before_cx (rev gatelist)).

Definition clifford1_index (gatelist : list string) : Z :=
  pauli_index "0" gatelist
  + 4 * rotation_index "0" gatelist
  + 12 * hadamard_index "0" gatelist.

Definition clifford2_index (gatelist : list string) : Z :=
  let pre := before_cx gatelist in
  let post := after_cx gatelist in
  let r0 := rotation_index "0" pre in
  let r1 := rotation_index "1" pre in
  let r2 := rotation_index "0" post in
  let r3 := rotation_index "1" post in
  let h0 := hadamard_index "0" gatelist in
  let h1 := hadamard_index "1" gatelist in
  let symp :=
    match count_cx gatelist with
    | 0%nat => r0 + 3 * r1 + 9 * h0 + 18 * h1
    | 1%nat => 36 + (r0 + 3 * r1 + 9 * r2 + 27 * r3 + 81 * h0 + 162 * h1)
    | 2%nat => 360 + (r0 + 3 * r1 + 9 * r2 + 27 * r3 + 81 * h0 + 162 * h1)
    | _ => 684 + (r0 + 3 * r1 + 9 * h0 + 18 * h1)
    end in
  16 * symp + pauli_index "0" gatelist + 4 * pauli_index "1" gatelist.

(** The gates on qubit 0, and the gates on the qubits 0 and 1. *)
Definition one_qubit_gates : list string :=
  ["h 0"; "v 0"; "w 0"; "z 0"; "x 0"; "y 0"].

Definition two_qubit_gates : list string :=
  ["h 0"; "h 1"; "v 0"; "w 0"; "v 1"; "w 1"; "cx 0 1"; "cx 1 0";
   "z 0"; "x 0"; "y 0"; "z 1"; "x 1"; "y 1"].

(** Two Paulis, each given by its X bit and its Z bit, anticommute when
    their symplectic product is 1. *)
Definition anticommute (x1 z1 x2 z2 : bool) : bool :=
  xorb (x1 && z2) (z1 && x2).

(** * Properties *)

(** ** The order of the symplectic group *)

Lemma py_range_succ (n : nat) :
  py_range 1 (Z.of_nat (S n) + 1) = py_range 1 (Z.of_nat n + 1) ++ [Z.of_nat (S n)].
Proof.
  unfold py_range.
  replace (Z.to_nat (Z.of_nat (S n) + 1 - 1)) with (S n) by lia.
  replace (Z.to_nat (Z.of_nat n + 1 - 1)) with n by lia.
  rewrite seq_S, map_app. simpl. do 3 f_equal. lia.
Qed.

Lemma size_loop_product (n : nat) (start : Z) :
  fold_left (fun size i => size * (4 ^ i - 1))
            (py_range 1 (Z.of_nat n + 1)) start
  = start * prod_4k_minus_1 n.
Proof.
  induction n as [|n IH].
  - simpl. lia.
  - rewrite py_range_succ, fold_left_app, IH.
    cbn [fold_left prod_4k_minus_1]. ring.
Qed.

(** C8: for every qubit count n >= 1 the size computed for sampling is the
    integer 2^(n^2) * (4^1 - 1) * ... * (4^n - 1), the order of Sp(2n,2),
    computed in unbounded integers. *)
Theorem symplectic_group_size_exact (n : Z) :
  1 <= n -> symplectic_group_size n = order_Sp n.
Proof.
  intros Hn. unfold symplectic_group_size, order_Sp.
  rewrite <- (Z2Nat.id n) at 1 by lia.
  rewrite size_loop_product. f_equal. f_equal. lia.
Qed.

Lemma symplectic_group_size_exact_witness :
  1 <= 6 /\ symplectic_group_size 6 = order_Sp 6.
Proof.
  split; [lia | apply (symplectic_group_size_exact 6); lia].
Defined.

(** Six qubits already need more than 64 bits, and the value is exact. *)
Example symplectic_group_size_6 :
  symplectic_group_size 6 = 208114637736580743168000 /\
  2 ^ 64 < symplectic_group_size 6.
Proof. split; [reflexivity | vm_compute; reflexivity]. Qed.

(** ** Row sums *)

(** C2: on two qubits, target X(0) and source X(1): the row sum is the row
    of X(0)X(1); the call raises [AttributeError] in its first pass, at
    [self._g_AG], and the target row is left as it was. *)
Theorem rowsum_two_qubits_raises :
  _rowsum_AG [true; false; false; false; false]
             [false; true; false; false; false]
  = ([true; false; false; false; false], Raise AttributeError)
  /\ rowsum_spec [true; false; false; false; false]
                 [false; true; false; false; false]
     = [true; true; false; false; false].
Proof. split; reflexivity. Qed.

(** On one qubit as well: X and Z. *)
Example rowsum_one_qubit_raises :
  _rowsum_AG [true; false; false] [false; true; false]
  = ([true; false; false], Raise AttributeError)
  /\ rowsum_spec [true; false; false] [false; true; false]
     = [true; true; false].
Proof. split; reflexivity. Qed.

(** ** The validity check *)

(** C3: the table of the S gate satisfies T * Omega * T^T = Omega modulo 2,
    and [is_unitary] answers False on it. *)
Theorem is_unitary_rejects_S_gate :
  is_unitary (mkClifford 0%nat) {[ 0%nat := S_gate_table ]}
  = Ok (false, {[ 0%nat := S_gate_table ]})
  /\ is_symplectic 1 (_array S_gate_table) = true.
Proof. split; vm_compute; reflexivity. Qed.

(** The identity table passes both. *)
Example is_unitary_identity :
  is_unitary (mkClifford 0%nat) {[ 0%nat := StabilizerTable_of_array (np.eye 4) ]}
  = Ok (true, {[ 0%nat := StabilizerTable_of_array (np.eye 4) ]})
  /\ is_symplectic 2 (np.eye 4) = true.
Proof. split; vm_compute; reflexivity. Qed.

(** ** Composition *)

Section Compose.

Variable Instruction : Type.
Variable num_qubits : Instruction -> nat.
Variable append_gate : Clifford -> Instruction -> M unit.

(** C1: [compose] returns no operator: whatever the operands, the qargs and
    [front], the call ends in an exception. *)
Theorem compose_always_raises (self : Clifford) (other : init_data Instruction)
    (qargs : option (list nat)) (front : bool) (s : store) :
  is_Ok (compose Instruction num_qubits append_gate self other qargs front s)
  = false.
Proof.
  unfold compose, bind.
  destruct (match other with
            | data_Clifford c => ret c
            | _ => Clifford_init Instruction num_qubits append_gate other
            end s) as [[c s1]|e]; [|reflexivity].
  destruct (_get_compose_dims self c qargs front s1) as [[[] s2]|e];
    reflexivity.
Qed.

End Compose.

(** Two identity operators on one qubit, no qargs: the dimensions agree and
    the call raises [NotImplementedError]. *)
Example compose_identity_not_implemented :
  let s : store := {[ 0%nat := StabilizerTable_of_array (np.eye 2);
                      1%nat := StabilizerTable_of_array (np.eye 2) ]} in
  compose Empty_set (fun i => 0%nat) (fun _ _ => ret tt)
          (mkClifford 0%nat) (data_Clifford (mkClifford 1%nat)) None false s
  = Raise NotImplementedError.
Proof. vm_compute. reflexivity. Qed.

(** ** The classes of two-qubit gate lists *)

Lemma cx_class_nil : cx_class 0 [].
Proof. split; [reflexivity | constructor]. Qed.

Lemma cx_class_snoc_local (k : nat) (gatelist : list string) (g : string) :
  is_local_gate g = true -> gate_name g <> "cx" ->
  cx_class k gatelist -> cx_class k (gatelist ++ [g]).
Proof.
  intros Hloc Hcx [Hk Hall]. split.
  - unfold count_cx in *. rewrite filter_app, length_app, Hk.
    rewrite filter_cons_False by (simpl; exact Hcx). simpl. lia.
  - apply Forall_app. split; [exact Hall|]. constructor; [|constructor].
    right. exact Hloc.
Qed.

Lemma cx_class_snoc_cx (k : nat) (gatelist : list string) (g : string) :
  gate_name g = "cx" ->
  cx_class k gatelist -> cx_class (S k) (gatelist ++ [g]).
Proof.
  intros Hcx [Hk Hall]. split.
  - unfold count_cx in *. rewrite filter_app, length_app, Hk.
    rewrite filter_cons_True by (simpl; exact Hcx). simpl. lia.
  - apply Forall_app. split; [exact Hall|]. constructor; [|constructor].
    left. exact Hcx.
Qed.

Ltac snoc_local :=
  apply cx_class_snoc_local; [vm_compute; reflexivity | discriminate | ].

(** A hadamard, rotation or pauli call on qubit 0 or 1 appends local gates
    only, whatever the index. *)
Lemma append_local_gate (gate_type : string) (q : Z) (gate_index : option Z)
    (k : nat) (gatelist : list string) :
  gate_type ∈ ["hadamard"; "rotation"; "pauli"] -> q ∈ [0; 1] ->
  cx_class k gatelist ->
  cx_class k (append_gate_list gate_type [q] gate_index gatelist).
Proof.
  intros Hty Hq H.
  repeat (apply elem_of_cons in Hty as [->|Hty]);
    [ | | | by apply elem_of_nil in Hty ];
    (repeat (apply elem_of_cons in Hq as [->|Hq]);
     [ | | by apply elem_of_nil in Hq ]);
    unfold append_gate_list; cbn [String.eqb Ascii.eqb Bool.eqb nth];
    destruct (index_is gate_index 1), (index_is gate_index 2),
             (index_is gate_index 3);
    repeat snoc_local; exact H.
Qed.

(** A cnot call on the qubits 0 and 1, in either order, appends one cx. *)
Lemma append_cnot (a b : Z) (k : nat) (gatelist : list string) :
  (a, b) ∈ [(0, 1); (1, 0)] ->
  cx_class k gatelist ->
  cx_class (S k) (append_gate_list "cnot" [a; b] None gatelist).
Proof.
  intros Hab H.
  repeat (apply elem_of_cons in Hab as [[= -> ->]|Hab]);
    [ | | by apply elem_of_nil in Hab ];
    unfold append_gate_list; cbn [String.eqb Ascii.eqb Bool.eqb nth index_is];
    (apply cx_class_snoc_cx; [vm_compute; reflexivity | exact H]).
Qed.

Ltac gate_step :=
  first [ apply append_local_gate;
          [ set_solver | set_solver | ]
        | apply append_cnot; [ set_solver | ] ].

(** C9: the class of [clifford2_gates(idx)] is read off
    s = (idx mod 11520) div 16: no cx below 36, one cx below 360, two below
    684, three from there on, and every other gate is one of h, v, w, x, y
    and z. *)
Theorem clifford2_gates_class (idx : Z) :
  let s := (idx mod 11520) / 16 in
  cx_class (if s <? 36 then 0
            else if s <? 360 then 1
            else if s <? 684 then 2
            else 3)
           (clifford2_gates idx).
Proof.
  intros s. unfold clifford2_gates. cbv zeta. fold s.
  destruct (s <? 36); [|destruct (s <? 360); [|destruct (s <? 684)]];
    repeat gate_step; apply cx_class_nil.
Qed.

(** ** Construction *)

Lemma deref_lookup (l : loc) (t : StabilizerTable) (s : store) :
  s !! l = Some t -> deref l s = Ok (t, s).
Proof. intros H. unfold deref. by rewrite H. Qed.

Lemma fresh_lookup (s : store) : s !! fresh (dom s) = None.
Proof. apply not_elem_of_dom. apply is_fresh. Qed.

Lemma fresh_ne (l : loc) (t : StabilizerTable) (s : store) :
  s !! l = Some t -> fresh (dom s) <> l.
Proof. intros H Heq. rewrite <- Heq, fresh_lookup in H. discriminate. Qed.

Lemma reset_at (self : Clifford) (t : StabilizerTable) (s : store) :
  s !! _table self = Some t ->
  reset self s = Ok (tt, <[_table self := reset_table t]> s).
Proof.
  intros H. unfold reset, bind, assign.
  rewrite (deref_lookup _ _ _ H). cbn.
  unfold deref. rewrite lookup_insert_eq. cbn.
  rewrite insert_insert_eq. reflexivity.
Qed.

Section Construction.

Variable Instruction : Type.
Variable num_qubits : Instruction -> nat.
Variable append_gate : Clifford -> Instruction -> M unit.

Local Abbreviation init := (Clifford_init Instruction num_qubits append_gate).

(** Built from an array, either the number of rows is not twice the qubit
    count and the constructor raises, or it is and the new object holds the
    array as given. *)
Lemma Clifford_init_array_cases (a : list (list bool)) (s : store) :
  let t := StabilizerTable_of_array a in
  let l := fresh (dom s) in
  (size t <> 2 * _n_qubits t /\ init (data_array a) s = Raise QiskitError)%nat
  \/ (size t = 2 * _n_qubits t
      /\ init (data_array a) s = Ok (mkClifford l, <[l := t]> s))%nat.
Proof.
  intros t l. unfold Clifford_init, bind, alloc, validate_shape, bind.
  cbv zeta. fold l. fold t.
  rewrite (deref_lookup l t) by apply lookup_insert_eq.
  destruct (Nat.eqb_spec (size t) (2 * _n_qubits t)) as [Heq|Hne]; cbn.
  - right. split; [exact Heq | reflexivity].
  - left. split; [exact Hne | reflexivity].
Qed.

(** A 2N-by-2N array has N qubits and 2N rows, so it is accepted. *)
Lemma Clifford_init_square (N : nat) (a : list (list bool)) (s : store) :
  length a = (2 * N)%nat -> Forall (fun r => length r = (2 * N)%nat) a ->
  init (data_array a) s
  = Ok (mkClifford (fresh (dom s)),
        <[fresh (dom s) := StabilizerTable_of_array a]> s).
Proof.
  intros Hrows Hcols.
  destruct (Clifford_init_array_cases a s) as [[Hne _]|[_ Heq]]; [|exact Heq].
  exfalso. apply Hne.
  assert ((np.ncols a / 2)%nat = N) as Hn.
  { unfold np.ncols. destruct Hcols as [|r a' Hr _].
    - cbn [length] in Hrows. assert (N = 0%nat) as -> by lia. reflexivity.
    - cbn [hd]. rewrite Hr, Nat.mul_comm. apply Nat.div_mul. lia. }
  unfold size, StabilizerTable_of_array, StabilizerTable_new.
  cbn [_array _n_qubits]. rewrite Hn. exact Hrows.
Qed.

(** C10: built from an array, the constructor raises exactly when the
    number of rows is not twice the qubit count (half the number of
    columns); when it does not raise, the table of the new object is the
    array as given and [size = 2 * n_qubits]; and a 2N-by-2N array is
    accepted whatever its entries. *)
Theorem Clifford_init_array_shape (a : list (list bool)) (s : store) :
  let t := StabilizerTable_of_array a in
  let l := fresh (dom s) in
  ((size t <> 2 * _n_qubits t /\ init (data_array a) s = Raise QiskitError)
   \/ (size t = 2 * _n_qubits t
       /\ init (data_array a) s = Ok (mkClifford l, <[l := t]> s)))%nat
  /\ (forall N : nat,
        length a = (2 * N)%nat ->
        Forall (fun r => length r = (2 * N)%nat) a ->
        init (data_array a) s = Ok (mkClifford l, <[l := t]> s)).
Proof.
  intros t l. split.
  - apply Clifford_init_array_cases.
  - intros N. apply Clifford_init_square.
Qed.

(** C4, as the code has it: built from another Clifford, the new object
    holds the very table object of the old one and the store is as it was;
    [reset] on the new object then puts the identity table where the old
    object reads its tableau and phase. *)
Theorem Clifford_init_shares_table (c : Clifford) (t : StabilizerTable)
    (s : store) :
  s !! _table c = Some t -> size t = (2 * _n_qubits t)%nat ->
  init (data_Clifford c) s = Ok (mkClifford (_table c), s)
  /\ (d <- init (data_Clifford c) ;; reset d ;;; deref (_table c)) s
     = Ok (reset_table t, <[_table c := reset_table t]> s).
Proof.
  intros Hc Hsize.
  assert (init (data_Clifford c) s = Ok (mkClifford (_table c), s)) as Hinit.
  { unfold Clifford_init, bind, ret, validate_shape, bind.
    rewrite (deref_lookup _ _ _ Hc). rewrite Hsize, Nat.eqb_refl. reflexivity. }
  split; [exact Hinit|].
  unfold bind at 1. rewrite Hinit.
  unfold bind. rewrite (reset_at _ t) by exact Hc. cbn.
  apply deref_lookup. apply lookup_insert_eq.
Qed.

End Construction.

(** The all-zero 2-by-2 array is no symplectic table and is accepted. *)
Lemma Clifford_init_array_shape_witness :
  Clifford_init Empty_set (fun _ => 0%nat) (fun _ _ => ret tt)
    (data_array (np.zeros2 2 2)) ∅
  = Ok (mkClifford (fresh (dom (∅ : store))),
        <[fresh (dom (∅ : store)) := StabilizerTable_of_array (np.zeros2 2 2)]> ∅)
  /\ is_symplectic 1 (np.zeros2 2 2) = false.
Proof.
  split.
  - apply (proj2 (Clifford_init_array_shape Empty_set (fun _ => 0%nat)
                    (fun _ _ => ret tt) (np.zeros2 2 2) ∅) 1%nat).
    + reflexivity.
    + repeat constructor.
  - reflexivity.
Defined.

(** C4: the X gate on one qubit, a second object built from it, [reset] on
    the second: the first object then reads the identity table, its phase
    bit gone. *)
Lemma Clifford_init_copy_counterexample :
  exists (d : Clifford) (s1 s2 : store),
    Clifford_init Empty_set (fun _ => 0%nat) (fun _ _ => ret tt)
      (data_Clifford (mkClifford 0%nat)) {[ 0%nat := X_gate_table ]}
    = Ok (d, s1)
    /\ reset d s1 = Ok (tt, s2)
    /\ ({[ 0%nat := X_gate_table ]} : store) !! 0%nat = Some X_gate_table
    /\ s2 !! 0%nat = Some (StabilizerTable_of_array (np.eye 2))
    /\ _phase X_gate_table <> _phase (StabilizerTable_of_array (np.eye 2)).
Proof.
  exists (mkClifford 0%nat), {[ 0%nat := X_gate_table ]},
         {[ 0%nat := StabilizerTable_of_array (np.eye 2) ]}.
  repeat split; try (vm_compute; reflexivity). discriminate.
Qed.

Lemma Clifford_init_shares_table_witness :
  Clifford_init Empty_set (fun _ => 0%nat) (fun _ _ => ret tt)
    (data_Clifford (mkClifford 0%nat)) {[ 0%nat := X_gate_table ]}
  = Ok (mkClifford 0%nat, {[ 0%nat := X_gate_table ]})
  /\ (d <- Clifford_init Empty_set (fun _ => 0%nat) (fun _ _ => ret tt)
             (data_Clifford (mkClifford 0%nat)) ;;
      reset d ;;; deref 0%nat) {[ 0%nat := X_gate_table ]}
     = Ok (reset_table X_gate_table,
           <[0%nat := reset_table X_gate_table]> {[ 0%nat := X_gate_table ]}).
Proof.
  apply (Clifford_init_shares_table Empty_set (fun _ => 0%nat)
           (fun _ _ => ret tt) (mkClifford 0%nat) X_gate_table
           {[ 0%nat := X_gate_table ]}).
  - reflexivity.
  - reflexivity.
Defined.

(** ** Conjugation *)

Lemma odd_of_nat (k : nat) : Z.odd (Z.of_nat k) = Nat.odd k.
Proof.
  induction k as [|k IH]; [reflexivity|].
  rewrite Nat2Z.inj_succ, Z.odd_succ, Nat.odd_succ.
  rewrite <- Z.negb_odd, <- Nat.negb_odd, IH. reflexivity.
Qed.

Lemma sum_bits_popcount (v : list bool) :
  fold_right Z.add 0 (map Z.b2z v) = Z.of_nat (popcount v).
Proof.
  unfold popcount. induction v as [|b v IH]; [reflexivity|].
  cbn [map fold_right sum_list]. rewrite IH, Nat2Z.inj_add.
  destruct b; reflexivity.
Qed.

Lemma phase_bit_xor (p : bool) (v : list bool) :
  negb (Z.lxor (Z.b2z p) (fold_right Z.add 0 (map Z.b2z v) mod 2) =? 0)
  = xorb p (Nat.odd (popcount v)).
Proof.
  rewrite sum_bits_popcount, Zmod_odd, odd_of_nat.
  destruct p, (Nat.odd (popcount v)); reflexivity.
Qed.

Lemma conjugate_phase_computed (t : StabilizerTable) :
  map (fun v => negb (v =? 0))
      (zip_with (fun (p : bool) (s : Z) => Z.lxor (Z.b2z p) s)
                (_phase t)
                (map (fun s => s mod 2)
                     (np.sum_axis1
                        (zip_with np.logical_and (table_X t) (table_Z t)))))
  = conjugate_phase t.
Proof.
  unfold conjugate_phase, table_X, table_Z, np.sum_axis1.
  generalize (_n_qubits t) as n. generalize (_phase t) as ph.
  induction (_array t) as [|r arr IH]; intros ph n.
  - destruct ph; reflexivity.
  - destruct ph as [|p ph]; [reflexivity|].
    cbn [map zip_with]. rewrite phase_bit_xor. f_equal. apply IH.
Qed.

(** C5: [conjugate] returns a new object on a new table and leaves the
    table of the receiver as it was; the new table has the array of the old
    one, so the same X and Z bits, and in every row the phase bit of the old
    one XOR the parity of popcount(X_row AND Z_row). *)
Theorem conjugate_spec (self : Clifford) (t : StabilizerTable) (s : store) :
  s !! _table self = Some t -> length (_phase t) = size t ->
  let l := fresh (dom s) in
  let t' := {| _array := _array t;
               _phase := conjugate_phase t;
               _n_qubits := _n_qubits t |} in
  conjugate self s = Ok (mkClifford l, <[l := t']> s)
  /\ l <> _table self
  /\ (<[l := t']> s) !! _table self = Some t
  /\ table_X t' = table_X t /\ table_Z t' = table_Z t.
Proof.
  intros Hs _ l t'.
  assert (l <> _table self) as Hl by (eapply fresh_ne; exact Hs).
  split; [|split; [exact Hl|split; [|split; reflexivity]]].
  - unfold conjugate, bind. rewrite (deref_lookup _ _ _ Hs).
    unfold copy, bind. rewrite (deref_lookup _ _ _ Hs).
    unfold alloc. cbv zeta. fold l. unfold ret.
    cbn [_table].
    rewrite (deref_lookup (_table self) t) by (by rewrite lookup_insert_ne).
    unfold set_phase, bind.
    rewrite (deref_lookup l t) by apply lookup_insert_eq.
    unfold assign. rewrite insert_insert_eq, conjugate_phase_computed.
    reflexivity.
  - rewrite lookup_insert_ne by exact Hl. exact Hs.
Qed.

(** The Y-type row of the S gate picks up a sign, the Z row does not. *)
Lemma conjugate_spec_witness :
  conjugate (mkClifford 0%nat) {[ 0%nat := S_gate_table ]}
  = Ok (mkClifford 1%nat,
        <[1%nat := {| _array := [[true; true]; [false; true]];
                      _phase := [true; false];
                      _n_qubits := 1 |}]> {[ 0%nat := S_gate_table ]}).
Proof.
  refine (proj1 (conjugate_spec (mkClifford 0%nat) S_gate_table
                   {[ 0%nat := S_gate_table ]} _ _)).
  - vm_compute. reflexivity.
  - reflexivity.
Defined.

(** ** Sampling with a seed *)

Lemma fold_left_invariant {A B} (P : A -> Prop) (f : A -> B -> A)
    (l : list B) (a : A) :
  (forall a b, P a -> P (f a b)) -> P a -> P (fold_left f l a).
Proof.
  intros Hf. revert a. induction l as [|b l IH]; intros a Ha; cbn; auto.
Qed.

Lemma shape_zeros (k c : nat) : shape k c (replicate k (replicate c 0)).
Proof.
  split; [apply length_replicate|].
  apply Forall_replicate, length_replicate.
Qed.

Lemma shape_set_column (k c j : nat) (m : list (list Z)) (col : list Z) :
  length col = k -> shape k c m -> shape k c (set_column m j col).
Proof.
  unfold shape, set_column. revert k col.
  induction m as [|r m IH]; intros k col Hcol [Hlen Hrows].
  - split; [exact Hlen|constructor].
  - destruct col as [|v col]; [cbn in *; congruence|].
    apply Forall_cons in Hrows as [Hr Hrows].
    destruct (IH (length m) col) as [IHlen IHrows].
    + cbn in *. congruence.
    + split; [reflexivity|exact Hrows].
    + cbn [zip_with length]. split; [cbn in Hlen; congruence|].
      constructor; [|exact IHrows]. by rewrite length_insert.
Qed.

Lemma length_get_column (m : list (list Z)) (j : nat) :
  length (get_column m j) = length m.
Proof. apply length_map. Qed.

Section Sampling.

Variable Instruction : Type.
Variable num_qubits_of : Instruction -> nat.
Variable append_gate : Clifford -> Instruction -> M unit.
Variable seed_value : Type.
Variable rng_state : Type.
Variable seed_state : seed_value -> rng_state.
Variable randint : Z -> Z -> rng_state -> Z * rng_state.
Variable randrange : Z -> rng_state -> Z * rng_state.
Variable symplectic : Z -> nat -> list (list Z).

Local Abbreviation table_of_seed :=
  (random_clifford_table seed_value rng_state seed_state randint randrange
     symplectic).

Lemma length_interchange_rows (n : nat) (symp : list (list Z)) :
  length (interchange_rows n symp) = (2 * n)%nat.
Proof.
  unfold interchange_rows.
  apply (fold_left_invariant (fun m => length m = (2 * n)%nat)).
  - intros m i Hm. by rewrite !length_insert.
  - apply length_replicate.
Qed.

Lemma shape_interchange_columns (n : nat) (symp2 : list (list Z)) :
  length symp2 = (2 * n)%nat ->
  shape (2 * n) (2 * n) (interchange_columns n symp2).
Proof.
  intros Hlen. unfold interchange_columns.
  apply (fold_left_invariant (shape (2 * n) (2 * n))).
  - intros m i Hm.
    apply shape_set_column; [by rewrite length_get_column|].
    apply shape_set_column; [by rewrite length_get_column|exact Hm].
  - apply shape_zeros.
Qed.

(** The table handed to [Clifford] has 2n rows and n qubits. *)
Lemma random_clifford_table_shape (os_state : rng_state) (n : nat)
    (seed : option seed_value) :
  size (table_of_seed os_state n seed)
  = (2 * _n_qubits (table_of_seed os_state n seed))%nat.
Proof.
  unfold random_clifford_table.
  destruct (randint_list rng_state randint (2 * n) _) as [bits rng].
  destruct (randrange _ rng) as [rint rng'].
  destruct (shape_interchange_columns n
              (interchange_rows n (symplectic rint n))
              (length_interchange_rows n _)) as [Hlen Hrows].
  unfold size, StabilizerTable_new, np.ncols. cbn [_array _n_qubits].
  rewrite length_map, Hlen. f_equal.
  destruct Hrows as [|r m Hr _]; cbn [map hd].
  - cbn [length] in Hlen. assert (n = 0%nat) as -> by lia. reflexivity.
  - rewrite length_map, Hr, Nat.mul_comm. symmetry. apply Nat.div_mul. lia.
Qed.

(** C7: with a seed, [random_clifford] returns, and the table of the
    operator it returns (array and phase) is one and the same whatever the
    state of the operating system's entropy and whatever objects exist at
    the time of the call: two calls with one seed give equal tables. *)
Theorem random_clifford_deterministic (os1 os2 : rng_state) (n : nat)
    (a : seed_value) (s1 s2 : store) :
  exists t : StabilizerTable,
    random_clifford Instruction num_qubits_of append_gate seed_value
      rng_state seed_state randint randrange symplectic os1 n (Some a) s1
    = Ok (mkClifford (fresh (dom s1)), <[fresh (dom s1) := t]> s1)
    /\ random_clifford Instruction num_qubits_of append_gate seed_value
         rng_state seed_state randint randrange symplectic os2 n (Some a) s2
       = Ok (mkClifford (fresh (dom s2)), <[fresh (dom s2) := t]> s2).
Proof.
  exists (table_of_seed os1 n (Some a)).
  assert (forall os s,
    random_clifford Instruction num_qubits_of append_gate seed_value
      rng_state seed_state randint randrange symplectic os n (Some a) s
    = Ok (mkClifford (fresh (dom s)),
          <[fresh (dom s) := table_of_seed os n (Some a)]> s)) as Hrun.
  { intros os s. unfold random_clifford, Clifford_init, bind, alloc.
    cbv zeta. unfold validate_shape, bind.
    rewrite (deref_lookup _ (table_of_seed os n (Some a)))
      by apply lookup_insert_eq.
    rewrite random_clifford_table_shape, Nat.eqb_refl. reflexivity. }
  split; [apply Hrun|]. rewrite (Hrun os2 s2). reflexivity.
Qed.

End Sampling.

(** Without a seed the table follows the state the operating system
    provides: a small generator (a counter), two states, two phase vectors. *)
Example random_clifford_unseeded :
  let table := random_clifford_table unit Z (fun _ => 0)
                 (fun lo hi g => (lo + g mod (hi - lo + 1), g + 1))
                 (fun n g => (g mod n, g + 1))
                 (fun _ n => map (map Z.b2z) (np.eye (2 * n))) in
  _phase (table 0 1%nat None) = [false; true]
  /\ _phase (table 1 1%nat None) = [true; false]
  /\ table 0 1%nat (Some tt) = table 1 1%nat (Some tt).
Proof. repeat split. Qed.

(** ** The dictionary round trip *)

Lemma pauli_bits_char (x z : bool) : pauli_bits (pauli_char x z) = Some (x, z).
Proof. destruct x, z; reflexivity. Qed.

Lemma mapM_pauli_bits (l : list (bool * bool)) :
  mapM pauli_bits (map (fun p => pauli_char p.1 p.2) l) = Some l.
Proof.
  induction l as [|[x z] l IH]; [reflexivity|].
  cbn [map mapM fst snd]. rewrite pauli_bits_char, IH. reflexivity.
Qed.

Lemma zip_with_pauli_char (xs zs : list bool) :
  zip_with pauli_char xs zs = map (fun p => pauli_char p.1 p.2) (zip xs zs).
Proof.
  revert zs. induction xs as [|x xs IH]; intros [|z zs]; cbn; [done..|].
  by rewrite IH.
Qed.

Lemma map_fst_zip {A B} (l : list A) (k : list B) :
  (length l <= length k)%nat -> map fst (zip l k) = l.
Proof.
  revert k. induction l as [|a l IH]; intros [|b k] Hlen; cbn in *;
    [done | done | lia | f_equal; apply IH; lia].
Qed.

Lemma map_snd_zip {A B} (l : list A) (k : list B) :
  (length k <= length l)%nat -> map snd (zip l k) = k.
Proof.
  revert k. induction l as [|a l IH]; intros [|b k] Hlen; cbn in *;
    [done | lia | done | f_equal; apply IH; lia].
Qed.

(** Reading back the label of a row of 2n bits, n at least 1, gives the row
    and its phase bit. *)
Lemma from_label_to_label (n : nat) (row : list bool) (ph : bool) :
  (1 <= n)%nat -> length row = (2 * n)%nat ->
  from_label (to_label n row ph) = Ok (row, ph).
Proof.
  intros Hn Hrow. unfold to_label, from_label.
  rewrite list_ascii_of_string_of_list_ascii.
  rewrite zip_with_pauli_char, <- map_rev, mapM_pauli_bits.
  set (xs := take n row). set (zs := take n (drop n row)).
  assert (length xs = n) as Hxs by (subst xs; rewrite length_take; lia).
  assert (length zs = n) as Hzs
    by (subst zs; rewrite length_take, length_drop; lia).
  assert (map fst (zip xs zs) ++ map snd (zip xs zs) = row) as Hback.
  { rewrite map_fst_zip, map_snd_zip by lia.
    subst xs zs.
    rewrite (take_ge (drop n row)) by (rewrite length_drop; lia).
    apply take_drop. }
  destruct (rev (zip xs zs)) as [|p ps] eqn:Hrev.
  - apply (f_equal length) in Hrev.
    rewrite length_rev, length_zip in Hrev. cbn in Hrev. lia.
  - rewrite <- Hrev, rev_involutive, Hback.
    destruct ph; reflexivity.
Qed.

Lemma from_label_rows_to_labels (n : nat) (arr : list (list bool))
    (ph : list bool) :
  (1 <= n)%nat -> Forall (fun r => length r = (2 * n)%nat) arr ->
  from_label_rows (zip_with (to_label n) arr ph) = Ok (zip arr ph).
Proof.
  intros Hn Harr. revert ph.
  induction Harr as [|r arr Hr _ IH]; intros [|p ph]; try reflexivity.
  cbn [zip_with from_label_rows]. rewrite from_label_to_label by assumption.
  rewrite IH. reflexivity.
Qed.

Lemma from_labels_to_labels (t : StabilizerTable) :
  (1 <= _n_qubits t)%nat ->
  Forall (fun r => length r = (2 * _n_qubits t)%nat) (_array t) ->
  length (_phase t) = length (_array t) ->
  from_labels (Some (to_labels t))
  = Ok (StabilizerTable_new (_array t) (_phase t)).
Proof.
  intros Hn Harr Hph. unfold from_labels, to_labels.
  rewrite from_label_rows_to_labels by assumption.
  rewrite map_fst_zip, map_snd_zip by lia. reflexivity.
Qed.

Lemma from_labels_slice (n a b : nat) (t : StabilizerTable) :
  table_shape n t ->
  from_labels (Some (to_labels (table_slice t a b)))
  = Ok (StabilizerTable_new (_array (table_slice t a b))
                            (_phase (table_slice t a b))).
Proof.
  intros (Hn & Hrows & Hcols & Hph).
  destruct n as [|n].
  - destruct t as [[|r arr] ph q]; [|discriminate].
    destruct ph; [|discriminate].
    cbn in *. by rewrite !drop_nil, !take_nil.
  - apply from_labels_to_labels; cbn [table_slice _array _phase _n_qubits].
    + lia.
    + rewrite Hn. by apply Forall_take, Forall_drop.
    + rewrite !length_take, !length_drop. lia.
Qed.

Lemma table_add_slices (n : nat) (t : StabilizerTable) :
  table_shape n t ->
  table_add
    (StabilizerTable_new (_array (table_slice t 0 n))
                         (_phase (table_slice t 0 n)))
    (StabilizerTable_new (_array (table_slice t n (2 * n)))
                         (_phase (table_slice t n (2 * n))))
  = t.
Proof.
  intros (Hn & Hrows & Hcols & Hph).
  destruct t as [arr ph q]. cbn [_array _phase _n_qubits] in *. subst q.
  unfold table_add, StabilizerTable_new, table_slice.
  cbn [_array _phase _n_qubits].
  replace (2 * n - n)%nat with n by lia. rewrite Nat.sub_0_r, !drop_0.
  assert (forall (A : Type) (l : list A), length l = (2 * n)%nat ->
            take n l ++ take n (drop n l) = l) as Hsplit.
  { intros A l Hl. rewrite (take_ge (drop n l)) by (rewrite length_drop; lia).
    apply take_drop. }
  rewrite !Hsplit by assumption. f_equal.
  unfold np.ncols. destruct Hcols as [|r arr Hr _].
  - cbn [length] in Hrows. assert (n = 0%nat) as -> by lia. reflexivity.
  - destruct n as [|n]; [discriminate|].
    cbn [take hd]. rewrite Hr, Nat.mul_comm. apply Nat.div_mul. lia.
Qed.

Section RoundTrip.

Variable Instruction : Type.
Variable num_qubits : Instruction -> nat.
Variable append_gate : Clifford -> Instruction -> M unit.

(** C6: for an operator whose table has the shape of an n-qubit Clifford
    table, [from_dict(to_dict(elem))] returns a new operator on a new table
    with the contents of the old one, and [==] between the two holds. *)
Theorem dict_round_trip (self : Clifford) (t : StabilizerTable) (n : nat)
    (s : store) :
  s !! _table self = Some t -> table_shape n t ->
  let l := fresh (dom s) in
  (obj <- to_dict self ;; from_dict Instruction num_qubits append_gate obj) s
  = Ok (mkClifford l, <[l := t]> s)
  /\ Clifford_eq self (mkClifford l) (<[l := t]> s) = Ok (true, <[l := t]> s).
Proof.
  intros Hs Hshape l.
  assert (l <> _table self) as Hl by (eapply fresh_ne; exact Hs).
  split.
  - unfold to_dict, stabilizer, destabilizer, bind.
    rewrite (deref_lookup _ _ _ Hs). unfold ret.
    rewrite (deref_lookup _ _ _ Hs).
    unfold from_dict, bind, lift.
    rewrite lookup_insert_eq.
    rewrite lookup_insert_ne by done. rewrite lookup_insert_eq.
    destruct Hshape as (Hn & Hrest). rewrite Hn.
    rewrite !(from_labels_slice n) by (split; assumption).
    rewrite (table_add_slices n t) by (split; assumption).
    unfold Clifford_init, bind, alloc. cbv zeta. fold l.
    unfold validate_shape, bind.
    rewrite (deref_lookup l t) by apply lookup_insert_eq.
    destruct Hrest as (Hrows & _). unfold size. rewrite Hrows, Hn, Nat.eqb_refl.
    reflexivity.
  - unfold Clifford_eq, bind. cbn [_table].
    rewrite (deref_lookup (_table self) t) by (by rewrite lookup_insert_ne).
    rewrite (deref_lookup l t) by apply lookup_insert_eq.
    unfold ret, table_eq. rewrite Nat.eqb_refl, !bool_decide_eq_true_2 by done.
    reflexivity.
Qed.

End RoundTrip.

(** The S gate on one qubit through its dictionary
    [{"stabilizer": ["+Z"], "destabilizer": ["+Y"]}]. *)
Lemma dict_round_trip_witness :
  (obj <- to_dict (mkClifford 0%nat) ;;
   from_dict Empty_set (fun _ => 0%nat) (fun _ _ => ret tt) obj)
    {[ 0%nat := S_gate_table ]}
  = Ok (mkClifford 1%nat, <[1%nat := S_gate_table]> {[ 0%nat := S_gate_table ]})
  /\ Clifford_eq (mkClifford 0%nat) (mkClifford 1%nat)
       (<[1%nat := S_gate_table]> {[ 0%nat := S_gate_table ]})
     = Ok (true, <[1%nat := S_gate_table]> {[ 0%nat := S_gate_table ]}).
Proof.
  refine (dict_round_trip Empty_set (fun _ => 0%nat) (fun _ _ => ret tt)
            (mkClifford 0%nat) S_gate_table 1%nat {[ 0%nat := S_gate_table ]}
            _ _).
  - vm_compute. reflexivity.
  - repeat split; repeat constructor.
Defined.

Example to_dict_S_gate :
  to_dict (mkClifford 0%nat) {[ 0%nat := S_gate_table ]}
  = Ok (<["destabilizer" := ["+Y"]]> (<["stabilizer" := ["+Z"]]> ∅),
        {[ 0%nat := S_gate_table ]}).
Proof. vm_compute. reflexivity. Qed.

(** * Further properties of the code *)

(** ** Gate lists *)

Lemma index_is_exclusive (gate_index : option Z) (j k : Z) :
  j <> k -> index_is gate_index j = true -> index_is gate_index k = false.
Proof.
  destruct gate_index as [v|]; cbn; [|done].
  intros Hjk Hj. apply Z.eqb_eq in Hj. apply Z.eqb_neq. lia.
Qed.

(** X1: on a qubit list that has the entries the gate type reads (one, and
    two for a cnot), [append_gate_list] only ever appends: the list it is
    given stays as the front of the result, at most one gate is added, and a
    gate type other than the four it knows adds none. *)
Theorem append_gate_list_appends (gate_type : string) (qubits : list Z)
    (gate_index : option Z) (gatelist : list string) :
  (1 <= length qubits)%nat ->
  (gate_type = "cnot" -> (2 <= length qubits)%nat) ->
  (exists ext : list string,
     append_gate_list gate_type qubits gate_index gatelist = gatelist ++ ext
     /\ (length ext <= 1)%nat)
  /\ (gate_type ∉ ["pauli"; "hadamard"; "rotation"; "cnot"] ->
      append_gate_list gate_type qubits gate_index gatelist = gatelist).
Proof.
  intros _ _. unfold append_gate_list. split.
  - destruct (String.eqb_spec gate_type "pauli") as [->|Hp];
      [|destruct (String.eqb_spec gate_type "hadamard") as [->|Hh];
        [|destruct (String.eqb_spec gate_type "rotation") as [->|Hr];
          [|destruct (String.eqb_spec gate_type "cnot") as [->|Hc]]]];
      cbn [String.eqb Ascii.eqb Bool.eqb].
    + destruct (index_is gate_index 1) eqn:H1.
      * rewrite (index_is_exclusive gate_index 1 2),
                (index_is_exclusive gate_index 1 3) by (done || lia).
        eexists. split; [reflexivity|]. cbn. lia.
      * destruct (index_is gate_index 2) eqn:H2.
        -- rewrite (index_is_exclusive gate_index 2 3) by (done || lia).
           eexists. split; [reflexivity|]. cbn. lia.
        -- destruct (index_is gate_index 3);
             [eexists; split; [reflexivity|]; cbn; lia|].
           exists []. split; [by rewrite app_nil_r | cbn; lia].
    + destruct (index_is gate_index 1);
        [eexists; split; [reflexivity|]; cbn; lia|].
      exists []. split; [by rewrite app_nil_r | cbn; lia].
    + destruct (index_is gate_index 1) eqn:H1.
      * rewrite (index_is_exclusive gate_index 1 2) by (done || lia).
        eexists. split; [reflexivity|]. cbn. lia.
      * destruct (index_is gate_index 2);
          [eexists; split; [reflexivity|]; cbn; lia|].
        exists []. split; [by rewrite app_nil_r | cbn; lia].
    + eexists. split; [reflexivity|]. cbn. lia.
    + exists []. split; [by rewrite app_nil_r | cbn; lia].
  - intros Hty.
    destruct (String.eqb_spec gate_type "pauli") as [->|_]; [set_solver|].
    destruct (String.eqb_spec gate_type "hadamard") as [->|_]; [set_solver|].
    destruct (String.eqb_spec gate_type "rotation") as [->|_]; [set_solver|].
    destruct (String.eqb_spec gate_type "cnot") as [->|_]; [set_solver|].
    reflexivity.
Qed.

Lemma append_gate_list_appends_witness :
  append_gate_list "swap" [0; 1] None ["h 0"] = ["h 0"].
Proof.
  refine (proj2 (append_gate_list_appends "swap" [0; 1] None ["h 0"] _ _) _).
  - cbn. lia.
  - discriminate.
  - compute_done.
Defined.

Lemma elem_of_py_range (k n : Z) : 0 <= k < n -> In k (py_range 0 n).
Proof.
  intros Hk. unfold py_range. apply in_map_iff.
  exists (Z.to_nat k). split; [lia|]. apply in_seq. lia.
Qed.

Lemma clifford1_gates_mod (idx : Z) :
  clifford1_gates idx = clifford1_gates (idx mod 24).
Proof. unfold clifford1_gates. cbv zeta. by rewrite Z.mod_mod. Qed.

Lemma clifford2_gates_mod (idx : Z) :
  clifford2_gates idx = clifford2_gates (idx mod 11520).
Proof. unfold clifford2_gates. cbv zeta. by rewrite Z.mod_mod. Qed.

(** All 24 indices, one by one: the index is read back from the list, and
    the list has at most 3 gates. *)
Lemma clifford1_gates_checked :
  forallb (fun k => (clifford1_index (clifford1_gates k) =? k)
                    && (length (clifford1_gates k) <=? 3)%nat
                    && forallb (fun g => bool_decide (g ∈ one_qubit_gates))
                               (clifford1_gates k))
          (py_range 0 24) = true.
Proof. vm_compute. reflexivity. Qed.

(** All 11520 indices, one by one, at most 10 gates each. *)
Lemma clifford2_gates_checked :
  forallb (fun k => (clifford2_index (clifford2_gates k) =? k)
                    && (length (clifford2_gates k) <=? 10)%nat
                    && forallb (fun g => bool_decide (g ∈ two_qubit_gates))
                               (clifford2_gates k))
          (py_range 0 11520) = true.
Proof. vm_compute. reflexivity. Qed.

Lemma clifford1_index_gates (idx : Z) :
  clifford1_index (clifford1_gates idx) = idx mod 24
  /\ (length (clifford1_gates idx) <= 3)%nat
  /\ Forall (fun g => g ∈ one_qubit_gates) (clifford1_gates idx).
Proof.
  rewrite clifford1_gates_mod.
  pose proof (proj1 (forallb_forall _ _) clifford1_gates_checked
                (idx mod 24)
                (elem_of_py_range _ _ (Z.mod_pos_bound idx 24 eq_refl))) as H.
  cbv beta in H. apply andb_prop in H as [H H3]. apply andb_prop in H as [H1 H2].
  split; [by apply Z.eqb_eq | split; [by apply Nat.leb_le|]].
  apply Forall_forall. intros g Hg%list_elem_of_In.
  rewrite forallb_forall in H3.
  exact (proj1 (bool_decide_eq_true _) (H3 g Hg)).
Qed.

Lemma clifford2_index_gates (idx : Z) :
  clifford2_index (clifford2_gates idx) = idx mod 11520
  /\ (length (clifford2_gates idx) <= 10)%nat
  /\ Forall (fun g => g ∈ two_qubit_gates) (clifford2_gates idx).
Proof.
  rewrite clifford2_gates_mod.
  pose proof (proj1 (forallb_forall _ _) clifford2_gates_checked
                (idx mod 11520)
                (elem_of_py_range _ _ (Z.mod_pos_bound idx 11520 eq_refl))) as H.
  cbv beta in H. apply andb_prop in H as [H H3]. apply andb_prop in H as [H1 H2].
  split; [by apply Z.eqb_eq | split; [by apply Nat.leb_le|]].
  apply Forall_forall. intros g Hg%list_elem_of_In.
  rewrite forallb_forall in H3.
  exact (proj1 (bool_decide_eq_true _) (H3 g Hg)).
Qed.

(** X2: two indices give the same list of one-qubit gates exactly when they
    agree modulo 24: the 24 canonical indices give 24 different lists. *)
Theorem clifford1_gates_injective (i j : Z) :
  clifford1_gates i = clifford1_gates j <-> i mod 24 = j mod 24.
Proof.
  split; intros H.
  - rewrite <- (proj1 (clifford1_index_gates i)),
            <- (proj1 (clifford1_index_gates j)).
    by rewrite H.
  - by rewrite (clifford1_gates_mod i), (clifford1_gates_mod j), H.
Qed.

(** X3: two indices give the same list of two-qubit gates exactly when they
    agree modulo 11520: the 11520 canonical indices give 11520 different
    lists. *)
Theorem clifford2_gates_injective (i j : Z) :
  clifford2_gates i = clifford2_gates j <-> i mod 11520 = j mod 11520.
Proof.
  split; intros H.
  - rewrite <- (proj1 (clifford2_index_gates i)),
            <- (proj1 (clifford2_index_gates j)).
    by rewrite H.
  - by rewrite (clifford2_gates_mod i), (clifford2_gates_mod j), H.
Qed.

(** X4: a one-qubit gate list has at most 3 gates and a two-qubit gate list
    at most 10, whatever the index. *)
Theorem clifford_gates_length (idx : Z) :
  (length (clifford1_gates idx) <= 3)%nat
  /\ (length (clifford2_gates idx) <= 10)%nat.
Proof.
  split; [apply clifford1_index_gates | apply clifford2_index_gates].
Qed.

(** X17: every gate of a one-qubit gate list is one of h, v, w, z, x, y on
    qubit 0, and every gate of a two-qubit gate list is one of those on
    qubit 0 or 1, or a cx between the qubits 0 and 1. *)
Theorem clifford_gates_vocabulary (idx : Z) :
  Forall (fun g => g ∈ one_qubit_gates) (clifford1_gates idx)
  /\ Forall (fun g => g ∈ two_qubit_gates) (clifford2_gates idx).
Proof.
  split; [apply clifford1_index_gates | apply clifford2_index_gates].
Qed.

(** ** The sign function and the row sum, as written *)

(** X5: [_g_AG] is set for exactly one of the two orders of a pair of
    Paulis that anticommute, and for neither order of a pair that commutes
    (the identity and equal Paulis among them). *)
Theorem g_AG_anticommute (x1 z1 x2 z2 : bool) :
  xorb (_g_AG x1 z1 x2 z2) (_g_AG x2 z2 x1 z1) = anticommute x1 z1 x2 z2
  /\ _g_AG x1 z1 x2 z2 && _g_AG x2 z2 x1 z1 = false.
Proof. destruct x1, z1, x2, z2; split; reflexivity. Qed.

(** X6: on non-empty rows [_rowsum_AG] never changes the target row: when
    the row has three entries or more (one qubit or more) the call raises
    [AttributeError] in the first pass of its loop, before anything is
    written; when it has one or two entries the loop is empty and the call
    returns. *)
Theorem rowsum_AG_leaves_row (rowh rowi : list bool) :
  rowh <> [] -> rowi <> [] ->
  _rowsum_AG rowh rowi
  = (rowh, if (3 <=? length rowh)%nat then Raise AttributeError else Ok tt).
Proof.
  intros Hh Hi. unfold _rowsum_AG.
  destruct (last rowh) as [ph|] eqn:Hph;
    [|by apply last_None in Hph].
  destruct (last rowi) as [pi|] eqn:Hpi;
    [|by apply last_None in Hpi].
  destruct (Nat.leb_spec 3 (length rowh)) as [Hlen|Hlen].
  - destruct ((length rowh - 1) / 2)%nat as [|nq] eqn:Hnq.
    + apply Nat.div_small_iff in Hnq; lia.
    + reflexivity.
  - replace ((length rowh - 1) / 2)%nat with 0%nat; [reflexivity|].
    symmetry. apply Nat.div_small. lia.
Qed.

Lemma rowsum_AG_leaves_row_witness :
  _rowsum_AG [true; true; false] [false; false; true]
  = ([true; true; false], Raise AttributeError).
Proof.
  apply (rowsum_AG_leaves_row [true; true; false] [false; false; true]);
    discriminate.
Defined.

(** ** Identity tables *)

Lemma length_eye (k : nat) : length (np.eye k) = k.
Proof. unfold np.eye. by rewrite length_map, length_seq. Qed.

Lemma length_eye_row (k i : nat) : length (np.eye_row k i) = k.
Proof. unfold np.eye_row. by rewrite length_map, length_seq. Qed.

Lemma ncols_eye (k : nat) : np.ncols (np.eye k) = k.
Proof.
  unfold np.ncols, np.eye. destruct k as [|k]; [reflexivity|].
  cbn [seq map hd]. apply length_eye_row.
Qed.

(** The identity table on N qubits has 2N rows. *)
Lemma identity_table_size (N : nat) :
  size (StabilizerTable_of_array (np.eye (2 * N)))
  = (2 * _n_qubits (StabilizerTable_of_array (np.eye (2 * N))))%nat.
Proof.
  unfold size, StabilizerTable_of_array, StabilizerTable_new.
  cbn [_array _n_qubits]. rewrite length_eye, ncols_eye.
  rewrite (Nat.mul_comm 2 N), Nat.div_mul by lia. lia.
Qed.

Lemma map_nth_seq {A} (d : A) (l : list A) :
  map (fun j => nth j l d) (seq 0 (length l)) = l.
Proof.
  induction l as [|x l IH]; [reflexivity|].
  cbn [length seq map nth]. f_equal.
  rewrite <- seq_shift, map_map. exact IH.
Qed.

(** The boolean dot product with a row of the identity picks one entry. *)
Lemma dot_vec_eye_row (i s k : nat) (v : list bool) :
  existsb id (zip_with andb (map (Nat.eqb i) (seq s k)) v)
  = (s <=? i)%nat && (i <? s + k)%nat && nth (i - s) v false.
Proof.
  revert s v. induction k as [|k IH]; intros s v.
  - cbn [seq map zip_with existsb].
    destruct (Nat.leb_spec s i), (Nat.ltb_spec i (s + 0)); try lia; reflexivity.
  - destruct v as [|x v].
    + cbn [zip_with existsb map seq].
      replace (nth (i - s) [] false) with false by (by destruct (i - s)%nat).
      by rewrite andb_false_r.
    + cbn [seq map zip_with existsb id]. rewrite IH.
      destruct (Nat.eqb_spec i s) as [->|Hne].
      * rewrite Nat.leb_refl, Nat.sub_diag.
        replace (s <? s + S k)%nat with true by (symmetry; apply Nat.ltb_lt; lia).
        replace (S s <=? s)%nat with false by (symmetry; apply Nat.leb_gt; lia).
        cbn. by rewrite orb_false_r.
      * cbn [andb orb].
        destruct (Nat.leb_spec s i) as [Hle|Hgt].
        -- replace (S s <=? i)%nat with true by (symmetry; apply Nat.leb_le; lia).
           replace (S s + k)%nat with (s + S k)%nat by lia.
           replace (i - s)%nat with (S (i - S s)) by lia. reflexivity.
        -- replace (S s <=? i)%nat with false by (symmetry; apply Nat.leb_gt; lia).
           reflexivity.
Qed.

Lemma dot_vec_eye_l (k i : nat) (v : list bool) :
  (i < k)%nat -> np.dot_vec (np.eye_row k i) v = nth i v false.
Proof.
  intros Hi. unfold np.dot_vec, np.eye_row. rewrite dot_vec_eye_row.
  replace (i <? 0 + k)%nat with true by (symmetry; apply Nat.ltb_lt; lia).
  by rewrite Nat.sub_0_r.
Qed.

Lemma dot_vec_comm (a b : list bool) : np.dot_vec a b = np.dot_vec b a.
Proof.
  unfold np.dot_vec. f_equal. revert b.
  induction a as [|x a IH]; intros [|y b]; cbn; [done..|].
  by rewrite IH, andb_comm.
Qed.

Lemma nth_column (m : list (list bool)) (i j : nat) :
  nth i (np.column m j) false = nth j (nth i m []) false.
Proof.
  unfold np.column.
  rewrite <- (map_nth (fun r => nth j r false) m [] i).
  by destruct j.
Qed.

Lemma nth_eye_row (k i j : nat) :
  (j < k)%nat -> nth j (np.eye_row k i) false = Nat.eqb i j.
Proof.
  intros Hj. unfold np.eye_row.
  rewrite (nth_indep _ false (Nat.eqb i 0))
    by (rewrite length_map, length_seq; lia).
  rewrite map_nth, seq_nth by lia. reflexivity.
Qed.

Lemma column_eye (k j : nat) :
  (j < k)%nat -> np.column (np.eye k) j = np.eye_row k j.
Proof.
  intros Hj. unfold np.column, np.eye. rewrite map_map.
  change (np.eye_row k j) with (map (Nat.eqb j) (seq 0 k)).
  apply map_ext. intros i. rewrite nth_eye_row by lia. apply Nat.eqb_sym.
Qed.

(** The identity is a left unit of the boolean matrix product ... *)
Lemma dot_eye_l (k : nat) (m : list (list bool)) :
  length m = k -> Forall (fun r => length r = np.ncols m) m ->
  np.dot (np.eye k) m = m.
Proof.
  intros Hlen Hrows. unfold np.dot, np.eye. rewrite map_map.
  etransitivity; [|apply (map_nth_seq [] m)]. rewrite Hlen.
  apply map_ext_in. intros i Hi%in_seq.
  assert (length (nth i m []) = np.ncols m) as Hrow.
  { rewrite Forall_forall in Hrows. apply Hrows.
    apply list_elem_of_In, nth_In. lia. }
  etransitivity; [|apply (map_nth_seq false (nth i m []))]. rewrite Hrow.
  apply map_ext. intros j.
  rewrite dot_vec_eye_l by lia. apply nth_column.
Qed.

(** ... and a right unit. *)
Lemma dot_eye_r (k : nat) (m : list (list bool)) :
  Forall (fun r => length r = k) m -> np.dot m (np.eye k) = m.
Proof.
  intros Hrows. unfold np.dot. rewrite ncols_eye.
  etransitivity; [|apply (map_id m)]. apply map_ext_in. intros r Hr.
  rewrite Forall_forall in Hrows.
  etransitivity; [|apply (map_nth_seq false r)].
  rewrite (Hrows r) by (by apply list_elem_of_In).
  apply map_ext_in. intros j Hj%in_seq.
  rewrite column_eye by lia. rewrite dot_vec_comm. apply dot_vec_eye_l. lia.
Qed.

Lemma mod2_astype_bool_id (m : list (list bool)) : np.mod2_astype_bool m = m.
Proof.
  unfold np.mod2_astype_bool.
  etransitivity; [|apply (map_id m)]. apply map_ext. intros r.
  etransitivity; [|apply (map_id r)]. apply map_ext. by intros [].
Qed.

Lemma symeye_shape (n : nat) :
  length (_symeye n) = (2 * n)%nat
  /\ Forall (fun r => length r = (2 * n)%nat) (_symeye n).
Proof.
  unfold _symeye, np.block, np.zeros2, np.zeros, np.eye. split.
  - rewrite length_app, !length_zip_with, !length_map, !length_seq,
            !length_replicate. lia.
  - apply Forall_app. split; apply Forall_forall; intros r Hr;
      apply elem_of_lookup_zip_with in Hr as (i & a & b & -> & Ha & Hb);
      rewrite length_app.
    + apply lookup_replicate in Ha as [-> _].
      apply list_lookup_fmap_Some in Hb as (j & -> & _).
      rewrite length_replicate, length_eye_row. lia.
    + apply lookup_replicate in Hb as [-> _].
      apply list_lookup_fmap_Some in Ha as (j & -> & _).
      rewrite length_replicate, length_eye_row. lia.
Qed.

Lemma Forall_length_ncols (c : nat) (m : list (list bool)) :
  Forall (fun r => length r = c) m ->
  Forall (fun r => length r = np.ncols m) m.
Proof.
  intros H. destruct H as [|r m Hr Hm]; [constructor|].
  unfold np.ncols. cbn [hd]. constructor; [reflexivity|].
  eapply Forall_impl; [exact Hm|]. cbn. intros; congruence.
Qed.

(** ** Reset *)

Lemma reset_table_idempotent (t : StabilizerTable) :
  reset_table (reset_table t) = reset_table t.
Proof.
  unfold reset_table. cbn [_array _phase _n_qubits].
  unfold np.zeros. by rewrite length_eye, length_replicate.
Qed.

(** X8: [reset] puts the identity array of the same number of rows and the
    zero phase in the table of the operator, keeps the qubit count, leaves
    every other table object as it is, and a second [reset] changes
    nothing. *)
Theorem reset_identity (self : Clifford) (t : StabilizerTable) (s : store) :
  s !! _table self = Some t ->
  let s' := <[_table self := reset_table t]> s in
  reset self s = Ok (tt, s')
  /\ size (reset_table t) = size t
  /\ _n_qubits (reset_table t) = _n_qubits t
  /\ (forall l : loc, l <> _table self -> s' !! l = s !! l)
  /\ reset self s' = Ok (tt, s').
Proof.
  intros Hs s'. split; [by apply reset_at|].
  split; [apply length_eye|]. split; [reflexivity|]. split.
  - intros l Hl. subst s'. by rewrite lookup_insert_ne.
  - rewrite (reset_at self (reset_table t) s') by apply lookup_insert_eq.
    subst s'. by rewrite reset_table_idempotent, insert_insert_eq.
Qed.

Lemma reset_identity_witness :
  reset (mkClifford 0%nat) {[ 0%nat := S_gate_table ]}
  = Ok (tt, <[0%nat := reset_table S_gate_table]> {[ 0%nat := S_gate_table ]}).
Proof.
  refine (proj1 (reset_identity (mkClifford 0%nat) S_gate_table
                   {[ 0%nat := S_gate_table ]} _)).
  vm_compute. reflexivity.
Defined.

(** X9: after [reset], [is_unitary] answers True, on any number of
    qubits. *)
Theorem reset_is_unitary (self : Clifford) (t : StabilizerTable) (s : store) :
  s !! _table self = Some t -> size t = (2 * _n_qubits t)%nat ->
  (reset self ;;; is_unitary self) s
  = Ok (true, <[_table self := reset_table t]> s).
Proof.
  intros Hs Hsize. unfold bind at 1. rewrite (reset_at self t s Hs).
  unfold is_unitary, n_qubits, bind, deref, ret.
  rewrite !lookup_insert_eq. do 2 f_equal.
  cbn [default id reset_table _array _n_qubits]. unfold id.
  cbn [reset_table _array _n_qubits].
  unfold size in Hsize. rewrite Hsize.
  destruct (symeye_shape (_n_qubits t)) as [Hlen Hrows].
  rewrite dot_eye_r by exact Hrows.
  rewrite dot_eye_l by (exact Hlen || eapply Forall_length_ncols, Hrows).
  rewrite mod2_astype_bool_id. unfold np.array_equal.
  by apply bool_decide_eq_true_2.
Qed.

Lemma reset_is_unitary_witness :
  (reset (mkClifford 0%nat) ;;; is_unitary (mkClifford 0%nat))
    {[ 0%nat := S_gate_table ]}
  = Ok (true, <[0%nat := reset_table S_gate_table]> {[ 0%nat := S_gate_table ]}).
Proof.
  refine (reset_is_unitary (mkClifford 0%nat) S_gate_table
            {[ 0%nat := S_gate_table ]} _ _).
  - vm_compute. reflexivity.
  - reflexivity.
Defined.

(** ** The constructor, whatever it is given *)

Section Constructor.

Variable Instruction : Type.
Variable num_qubits : Instruction -> nat.
Variable append_gate : Clifford -> Instruction -> M unit.

Local Abbreviation init := (Clifford_init Instruction num_qubits append_gate).

Lemma validate_shape_Ok (l : loc) (c : Clifford) (s s' : store) :
  validate_shape l s = Ok (c, s') ->
  s' = s /\ c = mkClifford l
  /\ size (default empty_table (s !! l))
     = (2 * _n_qubits (default empty_table (s !! l)))%nat.
Proof.
  unfold validate_shape, bind, deref.
  destruct (Nat.eqb_spec (size (default empty_table (s !! l)))
              (2 * _n_qubits (default empty_table (s !! l)))) as [Heq|Hne];
    cbn; [|discriminate].
  intros [= <- <-]. done.
Qed.

(** X10: whatever [Clifford(data)] is given (another Clifford, a ScalarOp,
    an instruction, a table or an array), an object it returns reads a table
    with [size = 2 * n_qubits]. *)
Theorem Clifford_init_invariant (data : init_data Instruction)
    (c : Clifford) (s s' : store) :
  init data s = Ok (c, s') ->
  exists t : StabilizerTable,
    deref (_table c) s' = Ok (t, s') /\ size t = (2 * _n_qubits t)%nat.
Proof.
  unfold Clifford_init. unfold bind at 1.
  destruct (match data with
            | data_Clifford c0 => ret (_table c0)
            | data_ScalarOp op => _
            | data_Instruction i => _
            | data_table t => alloc t
            | data_array a => alloc (StabilizerTable_of_array a)
            end s) as [[l s1]|e]; [|discriminate].
  intros H. apply validate_shape_Ok in H as (-> & -> & Hsize).
  eexists. split; [reflexivity|exact Hsize].
Qed.

(** X11: from a [ScalarOp], the constructor raises unless the operator is
    unitary and its dimensions are a non-empty list of 2s; then it makes the
    identity table on as many qubits as there are dimensions. *)
Theorem Clifford_init_ScalarOp (op : ScalarOp) (s : store) :
  let l := fresh (dom s) in
  let N := length (_input_dims op) in
  init (data_ScalarOp op) s
  = if scalar_is_unitary op && (0 <? N)%nat && forallb (Z.eqb 2) (_input_dims op)
    then Ok (mkClifford l, <[l := StabilizerTable_of_array (np.eye (2 * N))]> s)
    else Raise QiskitError.
Proof.
  intros l N. unfold Clifford_init. unfold bind at 1.
  assert (bool_decide ((list_to_set (_input_dims op) : gset Z) = {[ 2 ]})
          = (0 <? N)%nat && forallb (Z.eqb 2) (_input_dims op)) as ->.
  { subst N. apply eq_true_iff_eq.
    rewrite bool_decide_eq_true, andb_true_iff, Nat.ltb_lt, forallb_forall.
    split.
    - intros Hset. split.
      + destruct (_input_dims op) as [|d ds]; [|cbn; lia].
        cbn in Hset. set_solver.
      + intros d Hd%list_elem_of_In. apply Z.eqb_eq.
        assert (d ∈ (list_to_set (_input_dims op) : gset Z)) as Hin
          by (by apply elem_of_list_to_set).
        rewrite Hset in Hin. set_solver.
    - intros [Hlen Hall]. apply set_eq. intros d.
      rewrite elem_of_list_to_set, elem_of_singleton. split.
      + intros Hd%list_elem_of_In. apply Hall in Hd. by apply Z.eqb_eq in Hd.
      + intros ->. destruct (_input_dims op) as [|d ds]; [cbn in Hlen; lia|].
        assert (In d (d :: ds)) as Hd by (by left).
        apply Hall, Z.eqb_eq in Hd. subst d. by left. }
  destruct (scalar_is_unitary op); cbn [negb orb andb]; [|reflexivity].
  destruct ((0 <? N)%nat && forallb (Z.eqb 2) (_input_dims op));
    cbn [negb]; [|reflexivity].
  unfold alloc. cbv zeta. fold l. unfold validate_shape, bind.
  rewrite (deref_lookup l (StabilizerTable_of_array (np.eye (2 * N))))
    by apply lookup_insert_eq.
  rewrite identity_table_size, Nat.eqb_refl. reflexivity.
Qed.

(** X12: [tensor] and [expand] return for no input: with a Clifford as
    [other] they raise [NotImplementedError] at once, and with an array
    whose number of rows is not twice its qubit count the error of the
    constructor comes first. *)
Theorem tensor_expand_raise (self : Clifford) (other : init_data Instruction)
    (c : Clifford) (a : list (list bool)) (s : store) :
  is_Ok (tensor Instruction num_qubits append_gate self other s) = false
  /\ is_Ok (expand Instruction num_qubits append_gate self other s) = false
  /\ tensor Instruction num_qubits append_gate self (data_Clifford c) s
     = Raise NotImplementedError
  /\ expand Instruction num_qubits append_gate self (data_Clifford c) s
     = Raise NotImplementedError
  /\ (length a <> (2 * (np.ncols a / 2))%nat ->
      tensor Instruction num_qubits append_gate self (data_array a) s
      = Raise QiskitError
      /\ expand Instruction num_qubits append_gate self (data_array a) s
         = Raise QiskitError).
Proof.
  split; [|split; [|split; [reflexivity|split; [reflexivity|]]]].
  - unfold tensor, bind.
    destruct (match other with data_Clifford c0 => ret c0 | _ => init other end s)
      as [[c0 s0]|e]; reflexivity.
  - unfold expand, bind.
    destruct (match other with data_Clifford c0 => ret c0 | _ => init other end s)
      as [[c0 s0]|e]; reflexivity.
  - intros Hrows. unfold tensor, expand, bind.
    destruct (Clifford_init_array_cases Instruction num_qubits append_gate a s)
      as [[_ ->]|[Heq _]]; [split; reflexivity|]. by destruct Hrows.
Qed.

End Constructor.

Lemma Clifford_init_invariant_witness :
  exists t : StabilizerTable,
    deref 0%nat (<[0%nat := StabilizerTable_of_array (np.eye 2)]> ∅)
    = Ok (t, <[0%nat := StabilizerTable_of_array (np.eye 2)]> ∅)
    /\ size t = (2 * _n_qubits t)%nat.
Proof.
  refine (Clifford_init_invariant Empty_set (fun _ => 0%nat)
            (fun _ _ => ret tt) (data_array (np.eye 2)) (mkClifford 0%nat) ∅
            (<[0%nat := StabilizerTable_of_array (np.eye 2)]> ∅) _).
  vm_compute. reflexivity.
Defined.

(** An array of one row of one bit has no qubit: the constructor's error
    comes before [NotImplementedError]. *)
Lemma tensor_expand_raise_witness :
  tensor Empty_set (fun _ => 0%nat) (fun _ _ => ret tt) (mkClifford 0%nat)
    (data_array [[true]]) ∅
  = Raise QiskitError
  /\ expand Empty_set (fun _ => 0%nat) (fun _ _ => ret tt) (mkClifford 0%nat)
       (data_array [[true]]) ∅
     = Raise QiskitError.
Proof.
  refine (proj2 (proj2 (proj2 (proj2
            (tensor_expand_raise Empty_set (fun _ => 0%nat)
               (fun _ _ => ret tt) (mkClifford 0%nat)
               (data_array [[true]]) (mkClifford 0%nat) [[true]] ∅)))) _).
  vm_compute. lia.
Defined.

(** ** Conjugating twice *)

Lemma conjugate_run (self : Clifford) (t : StabilizerTable) (s : store) :
  s !! _table self = Some t ->
  conjugate self s
  = Ok (mkClifford (fresh (dom s)),
        <[fresh (dom s) := {| _array := _array t;
                              _phase := conjugate_phase t;
                              _n_qubits := _n_qubits t |}]> s).
Proof.
  intros Hs. pose proof (fresh_ne _ _ _ Hs) as Hl.
  unfold conjugate, bind. rewrite (deref_lookup _ _ _ Hs).
  unfold copy, bind. rewrite (deref_lookup _ _ _ Hs).
  unfold alloc. cbv zeta. unfold ret. cbn [_table].
  rewrite (deref_lookup (_table self) t) by (by rewrite lookup_insert_ne).
  unfold set_phase, bind.
  rewrite (deref_lookup (fresh (dom s)) t) by apply lookup_insert_eq.
  unfold assign. by rewrite insert_insert_eq, conjugate_phase_computed.
Qed.

Lemma conjugate_phase_twice (t : StabilizerTable) :
  (length (_phase t) <= length (_array t))%nat ->
  conjugate_phase {| _array := _array t;
                     _phase := conjugate_phase t;
                     _n_qubits := _n_qubits t |}
  = _phase t.
Proof.
  unfold conjugate_phase. cbn [_array _phase _n_qubits].
  generalize (_n_qubits t) as n. generalize (_array t) as arr.
  induction (_phase t) as [|p ph IH]; intros arr n Hlen; [by destruct arr|].
  destruct arr as [|r arr]; [cbn in Hlen; lia|].
  cbn [zip_with]. rewrite IH by (cbn in Hlen; lia).
  f_equal. by rewrite xorb_assoc, xorb_nilpotent, xorb_false_r.
Qed.

(** X13: the conjugate of the conjugate is an operator with the table of
    the receiver: the same array and the same phase, on a table object of
    its own; the receiver is not touched by either call. *)
Theorem conjugate_involutive (self : Clifford) (t : StabilizerTable)
    (s : store) :
  s !! _table self = Some t -> length (_phase t) = size t ->
  exists (c2 : Clifford) (s2 : store),
    (c1 <- conjugate self ;; conjugate c1) s = Ok (c2, s2)
    /\ s2 !! _table c2 = Some t
    /\ _table c2 <> _table self
    /\ s2 !! _table self = Some t.
Proof.
  intros Hs Hph. pose proof (fresh_ne _ _ _ Hs) as Hl1.
  set (t1 := {| _array := _array t; _phase := conjugate_phase t;
                _n_qubits := _n_qubits t |}).
  set (s1 := <[fresh (dom s) := t1]> s).
  assert (s1 !! _table self = Some t) as Hs1
    by (subst s1; by rewrite lookup_insert_ne).
  pose proof (fresh_ne _ _ _ Hs1) as Hl2.
  exists (mkClifford (fresh (dom s1))), (<[fresh (dom s1) := t]> s1).
  split; [|split; [apply lookup_insert_eq|split; [exact Hl2|]]].
  - unfold bind. rewrite (conjugate_run self t s Hs). fold t1. fold s1.
    rewrite (conjugate_run (mkClifford (fresh (dom s))) t1 s1)
      by apply lookup_insert_eq.
    subst t1. cbn [_array _n_qubits].
    rewrite (conjugate_phase_twice t) by (unfold size in Hph; lia).
    by destruct t.
  - by rewrite lookup_insert_ne.
Qed.

Lemma conjugate_involutive_witness :
  exists (c2 : Clifford) (s2 : store),
    (c1 <- conjugate (mkClifford 0%nat) ;; conjugate c1)
      {[ 0%nat := S_gate_table ]} = Ok (c2, s2)
    /\ s2 !! _table c2 = Some S_gate_table
    /\ _table c2 <> 0%nat
    /\ s2 !! 0%nat = Some S_gate_table.
Proof.
  refine (conjugate_involutive (mkClifford 0%nat) S_gate_table
            {[ 0%nat := S_gate_table ]} _ _).
  - vm_compute. reflexivity.
  - reflexivity.
Defined.

(** ** The size of the group, for any integer *)

Lemma size_loop_lower (l : list Z) (start : Z) :
  Forall (fun i => 1 <= i) l -> 0 < start ->
  start <= fold_left (fun size i => size * (4 ^ i - 1)) l start.
Proof.
  intros Hl. revert start.
  induction Hl as [|i l Hi _ IH]; intros start Hstart; cbn [fold_left]; [lia|].
  assert (4 ^ 1 <= 4 ^ i) as Hpow by (apply Z.pow_le_mono_r; lia).
  change (4 ^ 1) with 4 in Hpow.
  etransitivity; [|apply IH; nia]. nia.
Qed.

(** X14: for every integer [num_qubits], zero and negative ones included,
    the size handed to [rng.randrange] is at least 2^(num_qubits^2), so it
    is positive and the range sampled from is never empty. *)
Theorem symplectic_group_size_positive (n : Z) :
  0 < 2 ^ (n ^ 2) <= symplectic_group_size n.
Proof.
  assert (0 < 2 ^ (n ^ 2)) as Hpos by (apply Z.pow_pos_nonneg; nia).
  split; [exact Hpos|]. unfold symplectic_group_size.
  apply size_loop_lower; [|exact Hpos].
  unfold py_range. apply Forall_forall. intros i Hi%list_elem_of_In.
  apply in_map_iff in Hi as (k & <- & _). lia.
Qed.

(** ** The interchange of rows and columns *)

(** The loop [for i in range(k): acc[i] = f(i); acc[i + n] = g(i)] on a
    list of 2n entries. *)
Lemma interchange_loop {A} (n k : nat) (f g : nat -> A) (init : list A) :
  (k <= n)%nat -> length init = (2 * n)%nat ->
  length (fold_left (fun acc i => <[(i + n)%nat := g i]> (<[i := f i]> acc))
                    (seq 0 k) init) = (2 * n)%nat
  /\ forall i : nat, (i < k)%nat ->
       fold_left (fun acc i => <[(i + n)%nat := g i]> (<[i := f i]> acc))
                 (seq 0 k) init !! i = Some (f i)
       /\ fold_left (fun acc i => <[(i + n)%nat := g i]> (<[i := f i]> acc))
                    (seq 0 k) init !! (i + n)%nat = Some (g i).
Proof.
  intros Hk Hinit. induction k as [|k IH].
  - split; [exact Hinit|]. intros i Hi. lia.
  - destruct IH as [Hlen Hprev]; [lia|].
    rewrite seq_S, fold_left_app. cbn [fold_left Nat.add].
    set (acc := fold_left _ (seq 0 k) init) in *.
    split; [by rewrite !length_insert|].
    intros i Hi. destruct (decide (i = k)) as [->|Hne].
    + split.
      * rewrite list_lookup_insert_ne by lia.
        apply list_lookup_insert_eq. lia.
      * apply list_lookup_insert_eq. rewrite length_insert. lia.
    + destruct (Hprev i) as [Hf Hg]; [lia|]. split.
      * by rewrite !list_lookup_insert_ne by lia.
      * by rewrite !list_lookup_insert_ne by lia.
Qed.

Lemma interchange_rows_lookup (n : nat) (symp : list (list Z)) (i : nat) :
  (i < n)%nat ->
  interchange_rows n symp !! i = Some (nth (2 * i) symp [])
  /\ interchange_rows n symp !! (i + n)%nat = Some (nth (2 * i + 1) symp []).
Proof.
  intros Hi. unfold interchange_rows.
  apply (interchange_loop n n (fun i => nth (2 * i) symp [])
           (fun i => nth (2 * i + 1) symp [])); [lia| |exact Hi].
  apply length_replicate.
Qed.

Lemma set_column_lookup (m : list (list Z)) (j : nat) (col : list Z)
    (r : nat) (row : list Z) (v : Z) :
  m !! r = Some row -> col !! r = Some v ->
  set_column m j col !! r = Some (<[j := v]> row).
Proof.
  intros Hm Hcol. unfold set_column.
  rewrite lookup_zip_with, Hm. cbn. by rewrite Hcol.
Qed.

Lemma get_column_lookup (m : list (list Z)) (j r : nat) (row : list Z) :
  m !! r = Some row -> get_column m j !! r = Some (nth j row 0).
Proof.
  intros Hm. unfold get_column.
  change (map ?f ?l) with (f <$> l). by rewrite list_lookup_fmap, Hm.
Qed.

Lemma columns_loop_row (n : nat) (symp2 : list (list Z)) (r : nat)
    (row2 : list Z) (inds : list nat) (m : list (list Z)) (row : list Z) :
  symp2 !! r = Some row2 -> m !! r = Some row ->
  fold_left (fun symp3 i =>
               set_column (set_column symp3 i (get_column symp2 (2 * i)))
                          (i + n) (get_column symp2 (2 * i + 1)))
            inds m !! r
  = Some (fold_left (fun acc i => <[(i + n)%nat := nth (2 * i + 1) row2 0]>
                                    (<[i := nth (2 * i) row2 0]> acc))
                    inds row).
Proof.
  intros Hrow2. revert m row.
  induction inds as [|i inds IH]; intros m row Hm; [exact Hm|].
  cbn [fold_left]. apply IH.
  apply set_column_lookup; [|by apply get_column_lookup].
  apply set_column_lookup; [exact Hm|by apply get_column_lookup].
Qed.

(** Row [r] of the second loop is the loop on the entries of that row. *)
Lemma interchange_columns_row (n : nat) (symp2 : list (list Z)) (r : nat)
    (row2 : list Z) :
  symp2 !! r = Some row2 -> (r < 2 * n)%nat ->
  interchange_columns n symp2 !! r
  = Some (fold_left (fun acc i => <[(i + n)%nat := nth (2 * i + 1) row2 0]>
                                    (<[i := nth (2 * i) row2 0]> acc))
                    (seq 0 n) (replicate (2 * n) 0)).
Proof.
  intros Hrow2 Hr. unfold interchange_columns.
  apply columns_loop_row; [exact Hrow2|]. by apply lookup_replicate_2.
Qed.

Lemma nth_lookup_Some {A} (l : list A) (i : nat) (d x : A) :
  l !! i = Some x -> nth i l d = x.
Proof. intros H. by rewrite (nth_lookup l i d), H. Qed.

(** X15: the two loops of [random_clifford] de-interleave the matrix of the
    sampling algorithm: with i and j below n, entry (i, j) of the result is
    entry (2i, 2j) of [symp], entry (i, j+n) is (2i, 2j+1), entry (i+n, j)
    is (2i+1, 2j) and entry (i+n, j+n) is (2i+1, 2j+1). *)
Theorem interchange_entries (n : nat) (symp : list (list Z)) (i j : nat) :
  shape (2 * n) (2 * n) symp -> (i < n)%nat -> (j < n)%nat ->
  let symp3 := interchange_columns n (interchange_rows n symp) in
  entry symp3 i j = entry symp (2 * i) (2 * j)
  /\ entry symp3 i (j + n) = entry symp (2 * i) (2 * j + 1)
  /\ entry symp3 (i + n) j = entry symp (2 * i + 1) (2 * j)
  /\ entry symp3 (i + n) (j + n) = entry symp (2 * i + 1) (2 * j + 1).
Proof.
  intros _ Hi Hj symp3.
  destruct (interchange_rows_lookup n symp i Hi) as [Hrow Hrow'].
  assert (forall r row2, interchange_rows n symp !! r = Some row2 ->
            (r < 2 * n)%nat ->
            entry symp3 r j = nth (2 * j) row2 0
            /\ entry symp3 r (j + n) = nth (2 * j + 1) row2 0) as Hentries.
  { intros r row2 Hr2 Hr. unfold entry. subst symp3.
    rewrite (nth_lookup_Some _ r [] _ (interchange_columns_row n _ r row2 Hr2 Hr)).
    destruct (interchange_loop n n (fun i => nth (2 * i) row2 0)
                (fun i => nth (2 * i + 1) row2 0) (replicate (2 * n) 0))
      as [_ Hloop]; [lia|apply length_replicate|].
    destruct (Hloop j Hj) as [Hf Hg].
    split; by apply nth_lookup_Some. }
  destruct (Hentries i _ Hrow) as [H1 H2]; [lia|].
  destruct (Hentries (i + n)%nat _ Hrow') as [H3 H4]; [lia|].
  unfold entry at 2 4 6 8. by rewrite H1, H2, H3, H4.
Qed.

Lemma interchange_entries_witness :
  let symp := [[1; 2; 3; 4]; [5; 6; 7; 8]; [9; 10; 11; 12]; [13; 14; 15; 16]] in
  let symp3 := interchange_columns 2 (interchange_rows 2 symp) in
  entry symp3 1 0 = entry symp 2 0
  /\ entry symp3 1 2 = entry symp 2 1
  /\ entry symp3 3 0 = entry symp 3 0
  /\ entry symp3 3 2 = entry symp 3 1.
Proof.
  apply (interchange_entries 2
           [[1; 2; 3; 4]; [5; 6; 7; 8]; [9; 10; 11; 12]; [13; 14; 15; 16]]
           1 0).
  - split; [reflexivity | repeat constructor].
  - lia.
  - lia.
Defined.

(** ** The sampled operator *)

Section Sampled.

Variable Instruction : Type.
Variable num_qubits_of : Instruction -> nat.
Variable append_gate : Clifford -> Instruction -> M unit.
Variable seed_value : Type.
Variable rng_state : Type.
Variable seed_state : seed_value -> rng_state.
Variable randint : Z -> Z -> rng_state -> Z * rng_state.
Variable randrange : Z -> rng_state -> Z * rng_state.
Variable symplectic : Z -> nat -> list (list Z).

Lemma length_randint_list (k : nat) (rng : rng_state) :
  length (randint_list rng_state randint k rng).1 = k.
Proof.
  revert rng. induction k as [|k IH]; intros rng; [reflexivity|].
  cbn [randint_list]. destruct (randint 0 1 rng) as [b rng1].
  specialize (IH rng1).
  destruct (randint_list rng_state randint k rng1) as [bs rng2].
  cbn in *. by rewrite IH.
Qed.

(** X16: seeded or not, and whatever the generator draws,
    [random_clifford(n, seed)] returns: a new operator on a new table of n
    qubits with 2n rows of 2n bits and 2n phase bits, every other object
    left as it was. *)
Theorem random_clifford_shape (os_state : rng_state) (n : nat)
    (seed : option seed_value) (s : store) :
  (forall rint : Z, shape (2 * n) (2 * n) (symplectic rint n)) ->
  exists t : StabilizerTable,
    random_clifford Instruction num_qubits_of append_gate seed_value
      rng_state seed_state randint randrange symplectic os_state n seed s
    = Ok (mkClifford (fresh (dom s)), <[fresh (dom s) := t]> s)
    /\ table_shape n t.
Proof.
  intros _.
  set (t := random_clifford_table seed_value rng_state seed_state randint
              randrange symplectic os_state n seed).
  pose proof (random_clifford_table_shape seed_value rng_state seed_state
                randint randrange symplectic os_state n seed) as Hsize.
  fold t in Hsize. exists t. split.
  - unfold random_clifford, Clifford_init, bind, alloc. cbv zeta. fold t.
    unfold validate_shape, bind.
    rewrite (deref_lookup _ t) by apply lookup_insert_eq.
    by rewrite Hsize, Nat.eqb_refl.
  - revert Hsize. subst t. unfold random_clifford_table.
    pose proof (length_randint_list (2 * n) (rng_seed seed_value rng_state
                  seed_state os_state seed)) as Hbits.
    destruct (randint_list rng_state randint (2 * n) _) as [bits rng].
    destruct (randrange _ rng) as [rint rng'].
    destruct (shape_interchange_columns n
                (interchange_rows n (symplectic rint n))
                (length_interchange_rows n _)) as [Hlen Hrows].
    unfold size, table_shape, StabilizerTable_new.
    cbn [_array _phase _n_qubits fst] in *. rewrite !length_map, Hlen.
    intros Hn. repeat split.
    + lia.
    + apply Forall_forall. intros r Hr%list_elem_of_In.
      apply in_map_iff in Hr as (r0 & <- & Hr0%list_elem_of_In).
      rewrite length_map. rewrite Forall_forall in Hrows. by apply Hrows.
    + exact Hbits.
Qed.

End Sampled.

Lemma random_clifford_shape_witness :
  exists t : StabilizerTable,
    random_clifford Empty_set (fun _ => 0%nat) (fun _ _ => ret tt) unit Z
      (fun _ => 0) (fun lo hi g => (lo + g mod (hi - lo + 1), g + 1))
      (fun n g => (g mod n, g + 1))
      (fun _ n => map (map Z.b2z) (np.eye (2 * n))) 5 1%nat None ∅
    = Ok (mkClifford (fresh (dom (∅ : store))),
          <[fresh (dom (∅ : store)) := t]> ∅)
    /\ table_shape 1 t.
Proof.
  apply (random_clifford_shape Empty_set (fun _ => 0%nat) (fun _ _ => ret tt)
           unit Z (fun _ => 0)
           (fun lo hi g => (lo + g mod (hi - lo + 1), g + 1))
           (fun n g => (g mod n, g + 1))
           (fun _ n => map (map Z.b2z) (np.eye (2 * n))) 5 1%nat None ∅).
  intros rint. split; [reflexivity | repeat constructor].
Defined.
